(** * Coordinated views over the student mental-health survey

    A shallow embedding of the aggregation core of
    [Homework3/mrudrapati]: the CGPA binning, the flow-graph builder and
    the node comparator of [components/Sankey.tsx], the region counter and
    the frequency grid of [components/VennDiagramC.tsx] (which also holds
    the HeatMap component), and the selection state of the page layout.

    JavaScript values are modelled as the code has them: a record of the
    dataset is an object used as a map from column header to cell value,
    numbers carry NaN and the infinities, [Map]s keep their insertion
    order, and a call that raises a [TypeError] returns [None].

    The claims C1 to C10 of the specification come first; the properties
    X1 to X19 that follow cover the rest of the three components: the
    colours, the legend and the strokes of the flow diagram, the fills and
    the title of the grid, the highlights and labels of the region
    diagram, and how the views agree with each other and with the
    selection. *)

From Stdlib Require Import QArith Ascii.
From stdpp Require Import gmap strings list fin_maps.

(* [set_solver] and [naive_solver] clear hypotheses that may already be gone. *)
Set Warnings "-clear-no-such-hyp".


(* ===================================================================== *)
(** * JavaScript values                                                   *)
(* ===================================================================== *)

Module Js.

(** A JavaScript number.  Finite doubles are read as the rationals they
    denote, and a decimal literal of the source as the decimal it spells;
    the code only compares such numbers and adds one to counters, which is
    exact on doubles below 2^53. *)
Inductive number :=
  | NaN
  | Infinity (negative : bool)
  | Finite (q : Q).

(** What a cell of a row parsed by [d3.csv(..., d3.autoType)] can hold, and
    [undefined] for a column that is absent. *)
Inductive any :=
  | Undefined
  | Null
  | Bool (b : bool)
  | Num (x : number)
  | Str (s : string)
  | Date.

#[global] Instance Q_eq_dec : EqDecision Q.
Proof. solve_decision. Defined.
#[global] Instance number_eq_dec : EqDecision number.
Proof. solve_decision. Defined.
#[global] Instance any_eq_dec : EqDecision any.
Proof. solve_decision. Defined.

(** [a <= b] on numbers: false as soon as one side is NaN. *)
Definition le (a b : number) : bool :=
  match a, b with
  | NaN, _ | _, NaN => false
  | Infinity true, _ => true
  | _, Infinity false => true
  | Infinity false, _ => false
  | _, Infinity true => false
  | Finite p, Finite q => Qle_bool p q
  end.

(** [a >= b]. *)
Definition ge (a b : number) : bool := le b a.

(** [a + b] on numbers. *)
Definition add (a b : number) : number :=
  match a, b with
  | NaN, _ | _, NaN => NaN
  | Infinity s, Infinity t => if Bool.eqb s t then Infinity s else NaN
  | Infinity s, _ | _, Infinity s => Infinity s
  | Finite p, Finite q => Finite (p + q)
  end.

(** The number holding the natural number [n]. *)
Definition of_nat (n : nat) : number := Finite (inject_Z (Z.of_nat n)).

(** [x + 1], as [x++] and [x += 1] compute it. *)
Definition bump (x : number) : number := add x (of_nat 1).

(** [ToNumeric] on what a property read can return, for [x++]:
    [undefined] becomes NaN. *)
Definition to_number_opt (o : option number) : number :=
  match o with
  | Some x => x
  | None => NaN
  end.

(** [a === b]. *)
Definition strict_eq (a b : any) : bool :=
  match a, b with
  | Undefined, Undefined | Null, Null => true
  | Bool x, Bool y => Bool.eqb x y
  | Str s, Str t => String.eqb s t
  | Num (Finite p), Num (Finite q) => Qeq_bool p q
  | Num (Infinity s), Num (Infinity t) => Bool.eqb s t
  | _, _ => false
  end.

(** [s.startsWith(p)]. *)
Definition startsWith (s p : string) : bool := String.prefix p s.

(** [arr.includes(x)] on an array of strings. *)
Definition includes (arr : list string) (x : string) : bool :=
  existsb (String.eqb x) arr.

(** [arr.indexOf(x)]: the first index holding [x], or -1. *)
Fixpoint indexOf (arr : list string) (x : string) : Z :=
  match arr with
  | [] => -1
  | y :: arr' =>
      if String.eqb y x then 0
      else let i := indexOf arr' x in if (i <? 0)%Z then -1 else i + 1
  end%Z.

(** [s.toLowerCase()], on the ASCII letters.  The code only compares the
    result with ['yes'], and no character outside ASCII lowers to one of
    y, e, s. *)
Definition lower_ascii (a : ascii) : ascii :=
  let n := nat_of_ascii a in
  if (65 <=? n)%nat && (n <=? 90)%nat then ascii_of_nat (n + 32) else a.

Fixpoint toLowerCase (s : string) : string :=
  match s with
  | EmptyString => EmptyString
  | String a s' => String (lower_ascii a) (toLowerCase s')
  end.

(** ** [parseFloat]

    The longest prefix that is a decimal literal, after leading white
    space: an optional sign, then [Infinity] or digits with an optional
    fraction and an optional exponent.  NaN when there is no such prefix. *)

Definition digit_of (a : ascii) : option Z :=
  let n := nat_of_ascii a in
  if (48 <=? n)%nat && (n <=? 57)%nat then Some (Z.of_nat (n - 48)) else None.

Definition is_space (a : ascii) : bool :=
  let n := nat_of_ascii a in
  (n =? 32)%nat || ((9 <=? n)%nat && (n <=? 13)%nat).

Fixpoint skip_spaces (s : string) : string :=
  match s with
  | String a s' => if is_space a then skip_spaces s' else s
  | EmptyString => s
  end.

(** Reads digits: the value so far, how many were read, and the rest. *)
Fixpoint read_digits (acc : Z) (cnt : nat) (s : string) : Z * nat * string :=
  match s with
  | String a s' =>
      match digit_of a with
      | Some d => read_digits (10 * acc + d) (S cnt) s'
      | None => (acc, cnt, s)
      end
  | EmptyString => (acc, cnt, s)
  end.

Definition read_sign (s : string) : bool * string :=
  match s with
  | String "-" s' => (true, s')
  | String "+" s' => (false, s')
  | _ => (false, s)
  end.

(** An exponent part counts only when at least one digit follows it. *)
Definition read_exponent (s : string) : Z :=
  match s with
  | String "e" s' | String "E" s' =>
      let '(neg, s'') := read_sign s' in
      let '(e, cnt, _) := read_digits 0 0 s'' in
      match cnt with
      | O => 0
      | _ => if neg then - e else e
      end
  | _ => 0
  end%Z.

Definition scale (m e : Z) : Q :=
  if (0 <=? e)%Z then inject_Z (m * 10 ^ e)
  else Qmake m (Z.to_pos (10 ^ (- e))).

Definition parseFloat_string (s : string) : number :=
  let '(neg, s1) := read_sign (skip_spaces s) in
  if String.prefix "Infinity" s1 then Infinity neg
  else
    let '(ip, icnt, s2) := read_digits 0 0 s1 in
    let '(m, fcnt, s3) :=
      match s2 with
      | String "." s2' =>
          let '(m, cnt, s3) := read_digits ip icnt s2' in
          (m, (cnt - icnt)%nat, s3)
      | _ => (ip, O, s2)
      end in
    match (icnt + fcnt)%nat with
    | O => NaN
    | _ =>
        let q := scale m (read_exponent s3 - Z.of_nat fcnt) in
        Finite (if neg then Qopp q else q)
    end.

(** [parseFloat(v)] converts [v] to a string first.  A number prints to a
    literal that reads back as itself; [undefined], [null], booleans and
    dates print to text that starts with a letter. *)
Definition parseFloat (v : any) : number :=
  match v with
  | Str s => parseFloat_string s
  | Num x => x
  | _ => NaN
  end.

End Js.

Import Js.

(** The decimal literal [n/100] of the source. *)
Definition dec2 (n : Z) : number := Finite (Qmake n 100).

(** A row of the dataset: column header to cell. *)
Abbreviation record := (gmap string any).

(** [d[col]]: the cell, or [undefined]. *)
Definition field (d : record) (col : string) : any :=
  default Undefined (d !! col).

(* ===================================================================== *)
(** * components/Sankey.tsx: the flow-graph builder                       *)
(* ===================================================================== *)

Module Sankey.

(** [getCgpabin], lines 63-70. *)
Definition getCgpabin (cgpa : number) : string :=
  if ge cgpa (dec2 0) && le cgpa (dec2 199) then "0-1.99"
  else if ge cgpa (dec2 200) && le cgpa (dec2 249) then "2.0-2.49"
  else if ge cgpa (dec2 250) && le cgpa (dec2 299) then "2.5-2.99"
  else if ge cgpa (dec2 300) && le cgpa (dec2 349) then "3.0-3.49"
  else if ge cgpa (dec2 350) && le cgpa (dec2 400) then "3.5-4.0"
  else "Unknown".

Definition cgpaBinLabels : list string :=
  ["0-1.99"; "2.0-2.49"; "2.5-2.99"; "3.0-3.49"; "3.5-4.0"].

(** A node carries its name; the four coordinates are 0 until the layout
    runs, which is after the graph is built. *)
Record CustomNode := { name : string; x0 : number; y0 : number; x1 : number; y1 : number }.

(** A link refers to its two node objects.  A name has one node object
    ([nodeMap]) and the builder never changes a node, so the reference is
    modelled by the node itself. *)
Record CustomLink := { source : CustomNode; target : CustomNode; value : number }.

Definition newNode (nm : string) : CustomNode :=
  {| name := nm; x0 := of_nat 0; y0 := of_nat 0; x1 := of_nat 0; y1 := of_nat 0 |}.

(** The three stage tests the component uses on node names (lines 93-98,
    206, 230). *)
Definition isCGPA (nm : string) : bool := includes cgpaBinLabels nm.
Definition isCondition (selectedCondition nm : string) : bool :=
  startsWith nm (selectedCondition +:+ " ").
Definition isTreatment (nm : string) : bool := startsWith nm "Treatment ".

(** The comparator given to [nodeSort], lines 92-129. *)
Definition nodeSort (selectedCondition : string) (a b : CustomNode) : Z :=
  let isCGPAA := isCGPA (name a) in
  let isCGPAB := isCGPA (name b) in
  let isConditionA := isCondition selectedCondition (name a) in
  let isConditionB := isCondition selectedCondition (name b) in
  let isTreatmentA := isTreatment (name a) in
  let isTreatmentB := isTreatment (name b) in
  if isCGPAA && isCGPAB then
    indexOf cgpaBinLabels (name a) - indexOf cgpaBinLabels (name b)
  else if isCGPAA then -1
  else if isCGPAB then 1
  else if isConditionA && isConditionB then
    let order := [selectedCondition +:+ " No"; selectedCondition +:+ " Yes"] in
    indexOf order (name a) - indexOf order (name b)
  else if isConditionA then -1
  else if isConditionB then 1
  else if isTreatmentA && isTreatmentB then
    let order := ["Treatment No"; "Treatment Yes"] in
    indexOf order (name a) - indexOf order (name b)
  else if isTreatmentA then -1
  else if isTreatmentB then 1
  else 0.

(** The builder's state: [nodeMap] is only looked up, [sankeyData.nodes] is
    the array in push order, and [linkMap] is a [Map] whose values are read
    back in insertion order (line 196). *)
Record Graph := {
  nodeMap : gmap string CustomNode;
  nodes : list CustomNode;
  linkMap : list (string * CustomLink)
}.

Definition emptyGraph : Graph :=
  {| nodeMap := ∅; nodes := []; linkMap := [] |}.

(** [addNode], lines 145-153. *)
Definition addNode (nm : string) (g : Graph) : CustomNode * Graph :=
  match nodeMap g !! nm with
  | Some existingNode => (existingNode, g)
  | None =>
      let existingNode := newNode nm in
      (existingNode,
       {| nodeMap := <[nm := existingNode]> (nodeMap g);
          nodes := nodes g ++ [existingNode];
          linkMap := linkMap g |})
  end.

(** [linkMap.has(key)]. *)
Definition has (m : list (string * CustomLink)) (key : string) : bool :=
  existsb (λ e, String.eqb (fst e) key) m.

(** [linkMap.get(key)!.value += 1]: the entry keeps its place. *)
Definition increment (m : list (string * CustomLink)) (key : string)
  : list (string * CustomLink) :=
  map (λ e, if String.eqb (fst e) key
            then (fst e, {| source := source (snd e); target := target (snd e);
                            value := bump (value (snd e)) |})
            else e) m.

(** Lines 173-181 and 185-193: count the link in, or enter it with 1. *)
Definition addLink (key : string) (src tgt : CustomNode)
    (m : list (string * CustomLink)) : list (string * CustomLink) :=
  if has m key then increment m key
  else m ++ [(key, {| source := src; target := tgt; value := of_nat 1 |})].

Definition yesNo (v : any) : string :=
  if strict_eq v (Str "Yes") then "Yes" else "No".

(** The three names a record derives (lines 160-169). *)
Definition cgpaRange (d : record) : string :=
  getCgpabin (parseFloat (field d "What is your CGPA?")).
Definition conditionName (selectedCondition : string) (d : record) : string :=
  selectedCondition +:+ " "
    +:+ yesNo (field d ("Do you have " +:+ selectedCondition +:+ "?")).
Definition treatmentName (d : record) : string :=
  "Treatment " +:+ yesNo (field d "Did you seek any specialist for a treatment?").

(** The body of [cleanData.forEach], lines 159-194. *)
Definition processRecord (selectedCondition : string) (g : Graph) (d : record)
  : Graph :=
  let '(cgpaNode, g) := addNode (cgpaRange d) g in
  let '(conditionNode, g) := addNode (conditionName selectedCondition d) g in
  let '(treatmentNode, g) := addNode (treatmentName d) g in
  let linkKey1 := name cgpaNode +:+ "->" +:+ name conditionNode in
  let m := addLink linkKey1 cgpaNode conditionNode (linkMap g) in
  let linkKey2 := name conditionNode +:+ "->" +:+ name treatmentNode in
  let m := addLink linkKey2 conditionNode treatmentNode m in
  {| nodeMap := nodeMap g; nodes := nodes g; linkMap := m |}.

Definition buildGraph (selectedCondition : string) (cleanData : list record)
  : Graph :=
  fold_left (processRecord selectedCondition) cleanData emptyGraph.

(** [sankeyData.links = Array.from(linkMap.values())]. *)
Definition links (g : Graph) : list CustomLink := map snd (linkMap g).

(** The sum of the weights of some links. *)
Definition sumValues (ls : list CustomLink) : number :=
  fold_right (λ l acc, add (value l) acc) (of_nat 0) ls.

Definition linksFrom (P : string → bool) (ls : list CustomLink) : list CustomLink :=
  filter (λ l, P (name (source l)) = true) ls.
Definition linksInto (P : string → bool) (ls : list CustomLink) : list CustomLink :=
  filter (λ l, P (name (target l)) = true) ls.

End Sankey.

(* ===================================================================== *)
(** * components/VennDiagramC.tsx: region counts and the frequency grid   *)
(* ===================================================================== *)

Module Venn.

(** One digit of the region key:
    [d[col]?.toLowerCase() === 'yes' ? 1 : 0].  The optional call stops at
    [undefined] and [null]; a string is lowered; any other cell has no
    [toLowerCase], and calling it raises a [TypeError] ([None]). *)
Definition yesDigit (v : any) : option string :=
  match v with
  | Undefined | Null => Some "0"
  | Str s => Some (if String.eqb (toLowerCase s) "yes" then "1" else "0")
  | Bool _ | Num _ | Date => None
  end.

(** The template literal of lines 84-86 and 394-396. *)
Definition regionKey (d : record) : option string :=
  a ← yesDigit (field d "Do you have Depression?");
  b ← yesDigit (field d "Do you have Anxiety?");
  c ← yesDigit (field d "Do you have Panic attack?");
  Some (a +:+ b +:+ c).

(** The object literal of lines 73-81. *)
Definition zeroCombinations : gmap string number :=
  <["100" := of_nat 0]> (<["010" := of_nat 0]> (<["001" := of_nat 0]>
  (<["110" := of_nat 0]> (<["101" := of_nat 0]> (<["011" := of_nat 0]>
  (<["111" := of_nat 0]> ∅)))))).

(** [combinations[key]++]: a key the object lacks reads [undefined], which
    increments to NaN and is stored under the key. *)
Definition increment (combinations : gmap string number) (key : string)
  : gmap string number :=
  <[key := bump (to_number_opt (combinations !! key))]> combinations.

(** The [forEach] of lines 83-88. *)
Fixpoint countInto (combinations : gmap string number) (data : list record)
  : option (gmap string number) :=
  match data with
  | [] => Some combinations
  | d :: rest => key ← regionKey d; countInto (increment combinations key) rest
  end.

(** [calculateFrequencies], lines 72-91. *)
Definition calculateFrequencies (data : list record) : option (gmap string number) :=
  countInto zeroCombinations data.

(** The seven region codes the diagram shows ([frequencyPositions], lines
    196-204). *)
Definition regionCodes : list string :=
  ["100"; "010"; "001"; "110"; "101"; "011"; "111"].



End Venn.

Module HeatMap.

Definition cgpaRanges : list string :=
  ["0 - 1.99"; "2.00 - 2.49"; "2.50 - 2.99"; "3.00 - 3.49"; "3.50 - 4.00"].
Definition yearsOfStudy : list string :=
  ["year 1"; "year 2"; "year 3"; "year 4"].

(** [Array.prototype.filter] with a callback that can raise. *)
Fixpoint filterE {A} (f : A → option bool) (l : list A) : option (list A) :=
  match l with
  | [] => Some []
  | x :: l' =>
      b ← f x; r ← filterE f l'; Some (if b : bool then x :: r else r)
  end.

(** A string is truthy unless it is empty; [null] is falsy. *)
Definition truthy (selectedRegion : option string) : bool :=
  match selectedRegion with
  | Some s => negb (String.eqb s "")
  | None => false
  end.

(** Lines 391-399. *)
Definition filteredData (selectedRegion : option string) (cleanData : list record)
  : option (list record) :=
  match selectedRegion with
  | Some code =>
      if truthy selectedRegion
      then filterE (λ d, k ← Venn.regionKey d; Some (String.eqb k code)) cleanData
      else Some cleanData
  | None => Some cleanData
  end.

Record Cell := { cgpa : string; year : string; count : nat }.

(** The callback of the inner [filter], line 405. *)
Definition inCell (cg yr : string) (d : record) : bool :=
  strict_eq (field d "What is your CGPA?") (Str cg)
  && strict_eq (field d "Your current year of Study") (Str yr).

(** Lines 402-408: one cell per range and year, ranges outermost. *)
Definition frequencyCells (filtered : list record) : list Cell :=
  flat_map (λ cg,
    map (λ yr, {| cgpa := cg; year := yr;
                  count := length (filter (λ d, inCell cg yr d = true) filtered) |})
        yearsOfStudy) cgpaRanges.

Definition frequencyData (selectedRegion : option string) (cleanData : list record)
  : option (list Cell) :=
  frequencyCells <$> filteredData selectedRegion cleanData.

(** The counts of all cells, summed. *)
Definition totalCount (cells : list Cell) : nat := sum_list_with count cells.

End HeatMap.

(* ===================================================================== *)
(** * The page layout: the selection state                                *)
(* ===================================================================== *)

Module Layout.

(** The two [useState] cells of [Layout], lines 23-24. *)
Record State := { selectedRegion : option string; selectedCondition : string }.

Definition initial : State :=
  {| selectedRegion := None; selectedCondition := "Depression" |}.

Definition setSelectedRegion (r : option string) (s : State) : State :=
  {| selectedRegion := r; selectedCondition := selectedCondition s |}.

Definition setSelectedCondition (c : string) (s : State) : State :=
  {| selectedRegion := selectedRegion s; selectedCondition := c |}.

(** The three handlers: the Reset button (line 48), [onRegionClick] (line
    84) and the [onChange] of the condition picker (line 111). *)
Inductive Event :=
  | Reset
  | RegionClick (regionCode : string)
  | ConditionChange (targetValue : string).

Definition handle (s : State) (e : Event) : State :=
  match e with
  | Reset => setSelectedRegion None s
  | RegionClick regionCode => setSelectedRegion (Some regionCode) s
  | ConditionChange targetValue => setSelectedCondition targetValue s
  end.

Definition run (s : State) (es : list Event) : State := fold_left handle es s.

(** The [option] elements of the picker, lines 113-115. *)
Definition conditionOptions : list string :=
  ["Depression"; "Panic attack"; "Anxiety"].

(** What the page can emit: a region click carries the code of one of the
    seven hit targets, a change carries the value of one of the options. *)
Definition emitted (e : Event) : Prop :=
  match e with
  | Reset => True
  | RegionClick regionCode => regionCode ∈ Venn.regionCodes
  | ConditionChange targetValue => targetValue ∈ conditionOptions
  end.

Definition valid (s : State) : Prop :=
  match selectedRegion s with
  | Some code => code ∈ Venn.regionCodes
  | None => True
  end
  ∧ selectedCondition s ∈ conditionOptions.

End Layout.

(* ===================================================================== *)
(** * Vocabulary of the statements                                        *)
(* ===================================================================== *)

Module Tiers.
Import Sankey.

(** The tier of a node name in the comparator: the first of the three
    stage tests it passes, in the order the comparator tries them. *)
Definition tier (selectedCondition nm : string) : nat :=
  if isCGPA nm then 0
  else if isCondition selectedCondition nm then 1
  else if isTreatment nm then 2
  else 3.

End Tiers.

Module Classes.
Import Venn.

(** The condition columns, in the order of the digits of the region key. *)
Definition conditions : list string := ["Depression"; "Anxiety"; "Panic attack"].

Definition column (condition : string) : string :=
  "Do you have " +:+ condition +:+ "?".

(** The cells the region key reads are strings or empty, so that reading
    the key raises no [TypeError]. *)
Definition keyed (d : record) : Prop :=
  Forall (λ c, is_Some (yesDigit (field d (column c)))) conditions.

(** The records of a collection that the key puts in region [code]. *)
Definition inRegion (code : string) (data : list record) : list record :=
  filter (λ d, regionKey d = Some code) data.


End Classes.

Module Grid.
Import HeatMap.

(** The twenty (range, year) pairs of the grid, in the order of the cells. *)
Definition pairs : list (string * string) :=
  c ← cgpaRanges; (λ y, (c, y)) <$> yearsOfStudy.

(** The pairs whose cell counts the record. *)
Definition cellsOf (d : record) : list (string * string) :=
  filter (λ p, inCell p.1 p.2 d = true) pairs.

(** The record's CGPA cell is one of the five range strings and its year
    cell one of the four year strings. *)
Definition onGrid (d : record) : Prop :=
  field d "What is your CGPA?" ∈ Str <$> cgpaRanges
  ∧ field d "Your current year of Study" ∈ Str <$> yearsOfStudy.

End Grid.

Module Flow.
Import Sankey.

(** The two (source, target) pairs a record derives. *)
Definition firstHop (selectedCondition : string) (d : record) : string * string :=
  (cgpaRange d, conditionName selectedCondition d).
Definition secondHop (selectedCondition : string) (d : record) : string * string :=
  (conditionName selectedCondition d, treatmentName d).

Definition endpoints (l : CustomLink) : string * string :=
  (name (source l), name (target l)).

(** The records that derive the pair [p]. *)
Definition deriving (selectedCondition : string) (p : string * string)
    (data : list record) : list record :=
  filter (λ d, firstHop selectedCondition d = p ∨ secondHop selectedCondition d = p)
    data.

(** The records whose parsed CGPA is a number at all, and those it puts in
    one of the five ranges. *)
Definition parseable (d : record) : Prop :=
  parseFloat (field d "What is your CGPA?") ≠ NaN.
Definition binned (d : record) : Prop := isCGPA (cgpaRange d) = true.

Definition isUnknown (nm : string) : bool := String.eqb nm "Unknown".

End Flow.

Module Samples.

(** A row with the six columns the components read. *)
Definition row (cgpaCell : any) (yearCell depression anxiety panic treatment : string)
  : record :=
  <["What is your CGPA?" := cgpaCell]>
  (<["Your current year of Study" := Str yearCell]>
  (<["Do you have Depression?" := Str depression]>
  (<["Do you have Anxiety?" := Str anxiety]>
  (<["Do you have Panic attack?" := Str panic]>
  (<["Did you seek any specialist for a treatment?" := Str treatment]> ∅))))).

(** The record of the specification's scenario A. *)
Definition scenarioA : record :=
  row (Num (dec2 320)) "year 2" "Yes" "No" "Yes" "No".

(** The same respondent as the survey file spells it. *)
Definition scenarioA_file : record :=
  row (Str "3.00 - 3.49") "year 2" "Yes" "No" "Yes" "No".

(** A respondent with none of the three conditions. *)
Definition healthy : record :=
  row (Str "3.50 - 4.00") "year 1" "No" "No" "No" "No".

(** Scenario B: two records that differ in CGPA only, 3.6 and 3.7. *)
Definition scenarioB : list record :=
  [row (Num (dec2 360)) "year 1" "Yes" "No" "No" "No";
   row (Num (dec2 370)) "year 1" "Yes" "No" "No" "No"].

(** Scenario D: a CGPA cell that does not parse. *)
Definition scenarioD : record :=
  row (Str "N/A") "year 3" "No" "Yes" "No" "Yes".

(** A CGPA cell that parses, to a number outside every range. *)
Definition outOfRange : record :=
  row (Num (dec2 500)) "year 3" "No" "Yes" "No" "Yes".


End Samples.

Module Hops.
Import Sankey Flow.

(** The key of a link in [linkMap]: [`${source.name}->${target.name}`]. *)
Definition key (p : string * string) : string := p.1 +:+ "->" +:+ p.2.

(** The pairs the records derive, in the order the builder meets them. *)
Definition hops (selectedCondition : string) (data : list record)
  : list (string * string) :=
  d ← data; [firstHop selectedCondition d; secondHop selectedCondition d].

Definition occurrences (p : string * string) (ps : list (string * string)) : nat :=
  length (filter (λ q, q = p) ps).

(** The distinct pairs of a list, in the order they are first seen. *)
Definition distinct (ps : list (string * string)) : list (string * string) :=
  reverse (remove_dups (reverse ps)).

(** The link of a pair, weighted by the occurrences of the pair. *)
Definition linkOf (ps : list (string * string)) (p : string * string) : CustomLink :=
  {| source := newNode p.1; target := newNode p.2;
     value := of_nat (occurrences p ps) |}.

(** One conditional of the loop body, applied to the pair of a hop. *)
Definition addHop (m : list (string * CustomLink)) (p : string * string)
  : list (string * CustomLink) :=
  addLink (key p) (newNode p.1) (newNode p.2) m.

(** The node registry is consistent: the array holds each name once, and
    the map holds, under each name of the array, the node of that name as
    it was created. *)
Definition registry (g : Graph) : Prop :=
  NoDup (name <$> nodes g)
  ∧ Forall (λ n, n = newNode (name n)) (nodes g)
  ∧ ∀ nm, nodeMap g !! nm
          = if decide (nm ∈ name <$> nodes g) then Some (newNode nm) else None.

(** The names a record derives. *)
Definition namesOf (selectedCondition : string) (d : record) : list string :=
  [cgpaRange d; conditionName selectedCondition d; treatmentName d].

End Hops.

Module Shapes.
Import Sankey.

(** The two shapes of a pair a record derives for the condition [c]:
    (bin label, condition name) and (condition name, treatment name). *)
Inductive hop (c : string) : string * string → Prop :=
  | hop_first (bin y : string) :
      bin ∈ cgpaBinLabels ++ ["Unknown"] → y ∈ ["Yes"; "No"] →
      hop c (bin, c +:+ " " +:+ y)
  | hop_second (y t : string) :
      y ∈ ["Yes"; "No"] → t ∈ ["Yes"; "No"] →
      hop c (c +:+ " " +:+ y, "Treatment " +:+ t).

End Shapes.

Module Cases.
Import Samples.

(** Scenario D next to a record whose CGPA parses but lies in no range. *)
Definition unbinned : list record := [scenarioD; outOfRange].

(** One record per way a CGPA cell can go. *)
Definition mixed : list record := [scenarioD; outOfRange; scenarioA; scenarioA_file].

End Cases.

(* ===================================================================== *)
(** * The rest of the components: orders, views and the page             *)
(* ===================================================================== *)

Module Order.
Import Sankey.

(** The place of a node name in the order the comparator induces: the
    tier first, then the index the tier's list gives the name (-1 when the
    list lacks it). *)
Definition sortKey (selectedCondition nm : string) : Z :=
  if isCGPA nm then indexOf cgpaBinLabels nm
  else if isCondition selectedCondition nm then
    10 + indexOf [selectedCondition +:+ " No"; selectedCondition +:+ " Yes"] nm
  else if isTreatment nm then
    20 + indexOf ["Treatment No"; "Treatment Yes"] nm
  else 30.

(** The column of the diagram a node name belongs to: the CGPA bins and
    "Unknown", then the two nodes of the condition, then the rest. *)
Definition rank (selectedCondition nm : string) : nat :=
  if bool_decide (nm ∈ cgpaBinLabels ++ ["Unknown"]) then 0
  else if bool_decide (nm ∈ [selectedCondition +:+ " Yes"; selectedCondition +:+ " No"])
  then 1
  else 2.

(** The distinct elements of a list, in the order they are first seen. *)
Definition firstSeen (l : list string) : list string :=
  reverse (remove_dups (reverse l)).

Definition nameList (selectedCondition : string) (data : list record) : list string :=
  d ← data; Hops.namesOf selectedCondition d.

End Order.

Module SankeyView.
Import Sankey.

(** A number is falsy when it is NaN or zero. *)
Definition falsy (x : number) : bool :=
  match x with
  | NaN => true
  | Finite q => Qeq_bool q 0
  | Infinity _ => false
  end.

(** [w || 0], for a property [w] that may be absent. *)
Definition orZero (w : option number) : number :=
  match w with
  | Some x => if falsy x then of_nat 0 else x
  | None => of_nat 0
  end.

(** [Math.max(a, b)]. *)
Definition max (a b : number) : number :=
  match a, b with
  | NaN, _ | _, NaN => NaN
  | _, _ => if le a b then b else a
  end.

(** The stroke width of a link, line 265: [Math.max(1, d.width || 0)]. *)
Definition strokeWidth (width : option number) : number :=
  max (of_nat 1) (orZero width).

(** The index of [x] in [l], or the length of [l]. *)
Fixpoint position (l : list string) (x : string) : nat :=
  match l with
  | [] => 0
  | y :: l' => if String.eqb y x then 0 else S (position l' x)
  end.

(** A call of a [d3.scaleOrdinal] with the given range and current domain:
    a value the domain lacks is appended to it first, and the value at
    index i of the domain maps to the range's entry i modulo its length
    ([undefined] when the range is empty). *)
Definition scaleOrdinal (range domain : list string) (x : string)
  : list string * option string :=
  let domain' := if decide (x ∈ domain) then domain else domain ++ [x] in
  (domain', range !! (position domain' x mod length range)).

(** [names.forEach(nm => colorMap.set(nm, scale(nm)))]. *)
Definition setColours (range : list string) (names : list string)
    (st : list string * gmap string (option string))
  : list string * gmap string (option string) :=
  fold_left (λ st nm, let '(domain, col) := scaleOrdinal range st.1 nm in
                      (domain, <[nm := col]> st.2)) names st.

Definition cgpaColours : list string :=
  ["#96c1ff"; "#7fa6ff"; "#5f8cff"; "#3f72ff"; "#00429d"].
Definition conditionColours : list string := ["#c51b8a"; "#7a0177"].
Definition treatmentColors : gmap string string :=
  <["Treatment Yes" := "#2ca02c"]> (<["Treatment No" := "#d62728"]> ∅).

(** Lines 229-238: a treatment node takes its fixed colour, or grey. *)
Definition setTreatment (cm : gmap string (option string)) (node : CustomNode)
  : gmap string (option string) :=
  if isTreatment (name node) then
    match treatmentColors !! name node with
    | Some colour => <[name node := Some colour]> cm
    | None => <[name node := Some "#cccccc"]> cm
    end
  else cm.

(** [colorMap], lines 201-238, for the nodes of the diagram. *)
Definition colorMap (selectedCondition : string) (ns : list CustomNode)
  : gmap string (option string) :=
  let cm := (setColours cgpaColours cgpaBinLabels (cgpaBinLabels, ∅)).2 in
  let conditionNodes :=
    filter (λ d, isCondition selectedCondition (name d) = true) ns in
  let cm := (setColours conditionColours (name <$> conditionNodes)
               ([selectedCondition +:+ " No"; selectedCondition +:+ " Yes"], cm)).2 in
  fold_left setTreatment ns cm.

(** [colorMap.get(nm)!]: [None] is [undefined]. *)
Definition colorOf (cm : gmap string (option string)) (nm : string) : option string :=
  cm !! nm ≫= id.

End SankeyView.

Module HeatMapView.
Import HeatMap.

(** [d3.max] of an array of numbers: [undefined] on the empty array. *)
Definition d3max (l : list nat) : option nat :=
  match l with
  | [] => None
  | x :: l' => Some (fold_left Nat.max l' x)
  end.

(** Line 421: [d3.max(frequencyData, d => d.count) || 0]. *)
Definition maxCount (cells : list Cell) : nat := default 0 (d3max (count <$> cells)).

(** The fill of a cell: a point of the sequential colour scale, or a flat
    colour. *)
Inductive Fill :=
  | Scaled (t : Q)
  | Flat (colour : string).

(** The scale of lines 423-425 has the domain [0, maxCount || 1]; it sends
    a count to the interpolator at count / (maxCount || 1). *)
Definition colorScale (maxCount count : nat) : Q :=
  Qmake (Z.of_nat count) (Pos.of_nat (if maxCount =? 0 then 1 else maxCount)).

(** Lines 449 and 457. *)
Definition cellFill (maxCount : nat) (cell : Cell) : Fill :=
  if 0 <? count cell then Scaled (colorScale maxCount (count cell))
  else Flat "#e0e0e0".

(** What an object literal inherits from [Object.prototype]: a lookup of
    one of these keys finds a function or an object, not [undefined]. *)
Definition objectPrototypeKeys : list string :=
  ["constructor"; "toString"; "toLocaleString"; "valueOf"; "hasOwnProperty";
   "isPrototypeOf"; "propertyIsEnumerable"; "__proto__"; "__defineGetter__";
   "__defineSetter__"; "__lookupGetter__"; "__lookupSetter__"].

Definition mapping : gmap string string :=
  <["100" := "Depression students academic performance"]>
  (<["010" := "Anxiety students academic performance"]>
  (<["001" := "Panic Attack students academic performance"]>
  (<["110" := "Depression & Anxiety students academic performance"]>
  (<["101" := "Depression & Panic Attack students academic performance"]>
  (<["011" := "Anxiety & Panic Attack students academic performance"]>
  (<["111" := "All three conditions students academic performance"]> ∅)))))).

(** What [getTitleForRegion] returns: a string, or what the mapping
    inherits under a key. *)
Inductive Title :=
  | Text (s : string)
  | Inherited (key : string).

(** [getTitleForRegion], lines 360-374. *)
Definition getTitleForRegion (regionCode : option string) : Title :=
  match regionCode with
  | Some code =>
      if truthy regionCode then
        match mapping !! code with
        | Some title => Text title
        | None =>
            if bool_decide (code ∈ objectPrototypeKeys) then Inherited code
            else Text "Selected students academic performance"
        end
      else Text "All students academic performance"
  | None => Text "All students academic performance"
  end.

End HeatMapView.

Module VennView.
Import HeatMap.

(** [circleData], lines 144-148: the condition and the index of a circle. *)
Definition circleData : list (string * nat) :=
  [("Depression", 0); ("Anxiety", 1); ("Panic Attack", 2)].

(** The fill opacity of a circle, lines 161-163 and 268-270:
    [selectedRegion ? (selectedRegion[d.index] === '1' ? 0.7 : 0.2) : 0.5]. *)
Definition fillOpacity (selectedRegion : option string) (index : nat) : number :=
  match selectedRegion with
  | Some code =>
      if truthy selectedRegion then
        if bool_decide (String.get index code = Some "1"%char)
        then Finite (7 # 10) else Finite (2 # 10)
      else Finite (5 # 10)
  | None => Finite (5 # 10)
  end.

Definition regionLabels : gmap string string :=
  <["100" := "Depression"]>
  (<["010" := "Anxiety"]>
  (<["001" := "Panic Attack"]>
  (<["110" := "Depression & Anxiety"]>
  (<["101" := "Depression & Panic Attack"]>
  (<["011" := "Anxiety & Panic Attack"]>
  (<["111" := "Depression & Anxiety & Panic Attack"]> ∅)))))).

(** The fill of the count of a region, line 243. *)
Definition textFill (selectedRegion : option string) (code : string) : string :=
  match selectedRegion with
  | Some s => if String.eqb s code then "yellow" else "black"
  | None => "black"
  end.

(** The circles a selection highlights, by condition. *)
Definition highlighted (selectedRegion : option string) : list string :=
  fst <$> filter (λ c, fillOpacity selectedRegion c.2 = Finite (7 # 10)) circleData.

(** [names.join(' & ')]. *)
Fixpoint join (names : list string) : string :=
  match names with
  | [] => ""
  | [x] => x
  | x :: rest => x +:+ " & " +:+ join rest
  end.

End VennView.

Module Page.
Import Layout.

Definition isRegionEvent (e : Event) : bool :=
  match e with
  | Reset | RegionClick _ => true
  | ConditionChange _ => false
  end.

Definition isConditionEvent (e : Event) : bool := negb (isRegionEvent e).

(** The selections the page can reach: none, or one of the seven codes. *)
Definition selectable (r : option string) : Prop :=
  match r with
  | Some code => code ∈ Venn.regionCodes
  | None => True
  end.

(** What the three components are given after a run of events: the page
    passes [selectedRegion] to the region diagram and the grid, and
    [selectedCondition] to the flow diagram. *)
Definition gridShown (s : State) (data : list record) : option (list HeatMap.Cell) :=
  HeatMap.frequencyData (selectedRegion s) data.
Definition graphShown (s : State) (data : list record) : Sankey.Graph :=
  Sankey.buildGraph (selectedCondition s) data.

End Page.

Module Legend.
Import Sankey SankeyView.

(** [cgpaLegendData], lines 368-371: one entry per label, with the colour
    the map holds for it. *)
Definition cgpaLegendData (cm : gmap string (option string))
  : list (string * option string) :=
  (λ label, (label, colorOf cm label)) <$> cgpaBinLabels.

(** Every name a node can take for a condition, and every pair a link can
    join. *)
Definition allNames (selectedCondition : string) : list string :=
  cgpaBinLabels ++ ["Unknown"]
  ++ [selectedCondition +:+ " No"; selectedCondition +:+ " Yes"]
  ++ ["Treatment No"; "Treatment Yes"].
Definition allPairs (selectedCondition : string) : list (string * string) :=
  (bin ← cgpaBinLabels ++ ["Unknown"];
   y ← ["No"; "Yes"]; [(bin, selectedCondition +:+ " " +:+ y)])
  ++ (y ← ["No"; "Yes"]; t ← ["No"; "Yes"];
      [(selectedCondition +:+ " " +:+ y, "Treatment " +:+ t)]).

End Legend.

Module Views.
Import HeatMap Venn.

(** The counts of the cells of one CGPA range, summed over the years. *)
Definition rowCount (range : string) (cells : list Cell) : nat :=
  sum_list_with count (filter (λ cell, cgpa cell = range) cells).

(** [combinations[code]] summed over some codes. *)
Definition sumCodes (combinations : gmap string number) (codes : list string)
  : number :=
  fold_right (λ code acc, add (to_number_opt (combinations !! code)) acc)
    (of_nat 0) codes.

(** The region codes whose digit of index [i] is 1. *)
Definition codesWith (i : nat) : list string :=
  filter (λ code, String.get i code = Some "1"%char) regionCodes.

(** The three condition cells of the record spell "Yes" or "No". *)
Definition answered (d : record) : Prop :=
  Forall (λ c, field d (Classes.column c) ∈ [Str "Yes"; Str "No"])
    Classes.conditions.

End Views.

(* ===================================================================== *)
(** * Proofs                                                              *)
(* ===================================================================== *)

Section Numbers.

Lemma le_Finite_true p q : le (Finite p) (Finite q) = true ↔ (p <= q)%Q.
Proof. apply Qle_bool_iff. Qed.

Lemma le_Finite_false p q : le (Finite p) (Finite q) = false ↔ (q < p)%Q.
Proof.
  simpl. split.
  - intros H. apply Qnot_le_lt. intros Hle. apply Qle_bool_iff in Hle. congruence.
  - intros H. destruct (Qle_bool p q) eqn:E; [|done].
    apply Qle_bool_iff in E. exfalso. eapply Qlt_not_le; eauto.
Qed.

Lemma add_of_nat a b : add (of_nat a) (of_nat b) = of_nat (a + b).
Proof.
  unfold of_nat, add, inject_Z, Qplus. simpl. f_equal. f_equal. lia.
Qed.

Lemma of_nat_inj a b : of_nat a = of_nat b → a = b.
Proof. unfold of_nat, inject_Z. intros H. injection H. lia. Qed.

End Numbers.

Module CgpaBins.
Import Sankey.

(** Turns every comparison of the goal and the context into an inequality
    on Q. *)
Ltac bin_cases :=
  unfold getCgpabin, ge, dec2;
  repeat match goal with
  | |- context [le (Finite ?p) (Finite ?q)] =>
      let E := fresh "E" in
      destruct (le (Finite p) (Finite q)) eqn:E;
      [apply le_Finite_true in E | apply le_Finite_false in E]
  end;
  simpl; unfold Qle, Qlt in *; simpl in *; try done; try lia.

Lemma getCgpabin_cases (x : number) :
  getCgpabin x ∈ cgpaBinLabels ++ ["Unknown"].
Proof.
  unfold cgpaBinLabels. destruct x as [|s|q].
  - vm_compute. set_solver.
  - destruct s; vm_compute; set_solver.
  - bin_cases; set_solver.
Qed.




End CgpaBins.

(* ===================================================================== *)
(** ** Strings                                                            *)
(* ===================================================================== *)

Section Strings.

Lemma prefix_app (p s : string) : String.prefix p (p +:+ s) = true.
Proof.
  induction p as [|a p IH]; simpl; [by destruct s|].
  destruct (ascii_dec a a); [done|congruence].
Qed.

Lemma app_eqb_tail (p s t : string) :
  String.eqb (p +:+ s) (p +:+ t) = String.eqb s t.
Proof.
  induction p as [|a p IH]; simpl; [done|]. by rewrite Ascii.eqb_refl.
Qed.

Lemma prefix_inv (p s : string) :
  String.prefix p s = true → ∃ r, s = p +:+ r.
Proof.
  revert s. induction p as [|a p IH]; intros s H; [by exists s|].
  destruct s as [|b s]; [done|]. simpl in H.
  destruct (ascii_dec a b) as [->|]; [|done].
  destruct (IH s H) as [r ->]. by exists r.
Qed.

Lemma string_length_app (s t : string) :
  String.length (s +:+ t) = (String.length s + String.length t)%nat.
Proof. induction s as [|a s IH]; simpl; [done|]. by rewrite IH. Qed.

End Strings.

(** Splits [c] character by character until the goal is decided. *)
Ltac peel c :=
  repeat (try done;
          destruct c as [|? c]; simpl in *; try done;
          repeat case_match; simplify_eq; simpl in *; try done).

(* ===================================================================== *)
(** ** The node comparator                                                *)
(* ===================================================================== *)

Module Comparator.
Import Sankey Tiers.

Lemma isCondition_own (c s : string) : isCondition c (c +:+ " " +:+ s) = true.
Proof.
  unfold isCondition, startsWith.
  replace (c +:+ " " +:+ s) with ((c +:+ " ") +:+ s); [apply prefix_app|].
  induction c as [|a c IH]; [done|]. exact (f_equal (String a) IH).
Qed.

Lemma conditionName_not_CGPA (c s : string) : isCGPA (c +:+ " " +:+ s) = false.
Proof.
  unfold isCGPA, includes, cgpaBinLabels. simpl.
  repeat (rewrite orb_false_iff; split); try done; apply String.eqb_neq; intros E; peel c.
Qed.

Lemma isCondition_Treatment (c s : string) :
  s = "No" ∨ s = "Yes" →
  isCondition c ("Treatment " +:+ s) = true → c = "Treatment".
Proof.
  unfold isCondition, startsWith.
  intros Hs H. apply prefix_inv in H as [r H].
  destruct Hs as [-> | ->]; peel c; peel r.
Qed.

Lemma nodeSort_Treatment_No_Yes (c : string) (a b : CustomNode) :
  name a = "Treatment No" → name b = "Treatment Yes" →
  nodeSort c a b = (-1)%Z ∧ nodeSort c b a = 1%Z.
Proof.
  intros Ha Hb. unfold nodeSort. rewrite Ha, Hb.
  change (isCGPA "Treatment No") with false.
  change (isCGPA "Treatment Yes") with false.
  change (isTreatment "Treatment No") with true.
  change (isTreatment "Treatment Yes") with true.
  cbv [andb].
  destruct (isCondition c "Treatment No") eqn:E1.
  - apply (isCondition_Treatment c "No") in E1 as ->; [|by left]. done.
  - destruct (isCondition c "Treatment Yes") eqn:E2; [|done].
    apply (isCondition_Treatment c "Yes") in E2 as ->; [|by right]. done.
Qed.

Lemma nodeSort_condition_No_Yes (c : string) (a b : CustomNode) :
  name a = c +:+ " No" → name b = c +:+ " Yes" →
  nodeSort c a b = (-1)%Z ∧ nodeSort c b a = 1%Z.
Proof.
  intros Ha Hb. unfold nodeSort. rewrite Ha, Hb.
  change (c +:+ " No") with (c +:+ " " +:+ "No").
  change (c +:+ " Yes") with (c +:+ " " +:+ "Yes").
  rewrite !(conditionName_not_CGPA c), !(isCondition_own c). cbv [andb].
  unfold indexOf. rewrite !String.eqb_refl, !app_eqb_tail. done.
Qed.

Lemma nodeSort_CGPA (c : string) (a b : CustomNode) (i j : nat) :
  cgpaBinLabels !! i = Some (name a) → cgpaBinLabels !! j = Some (name b) →
  nodeSort c a b = (Z.of_nat i - Z.of_nat j)%Z.
Proof.
  intros Ha Hb. unfold nodeSort.
  destruct i as [|[|[|[|[|i]]]]]; try done; injection Ha as <-;
    destruct j as [|[|[|[|[|j]]]]]; try done; injection Hb as <-; reflexivity.
Qed.

Lemma nodeSort_cross (c : string) (a b : CustomNode) :
  tier c (name a) < tier c (name b) →
  nodeSort c a b = (-1)%Z ∧ nodeSort c b a = 1%Z.
Proof.
  unfold tier, nodeSort.
  destruct (isCGPA (name a)), (isCGPA (name b)),
    (isCondition c (name a)), (isCondition c (name b)),
    (isTreatment (name a)), (isTreatment (name b)); simpl; intros; (done || lia).
Qed.

(** C6: the comparator puts two CGPA-bin nodes in the order of their
    indices in the fixed list of bins, whatever nodes carry the names; it
    puts the active condition's "No" node before its "Yes" node, and
    "Treatment No" before "Treatment Yes"; and of two nodes of different
    tiers, the one of the earlier tier comes first. *)
Theorem nodeSort_three_tiers (c : string) (a b : CustomNode) :
  (∀ i j : nat,
     cgpaBinLabels !! i = Some (name a) → cgpaBinLabels !! j = Some (name b) →
     nodeSort c a b = (Z.of_nat i - Z.of_nat j)%Z
     ∧ ((nodeSort c a b < 0)%Z ↔ i < j))
  ∧ (name a = c +:+ " No" → name b = c +:+ " Yes" →
     nodeSort c a b = (-1)%Z ∧ nodeSort c b a = 1%Z)
  ∧ (name a = "Treatment No" → name b = "Treatment Yes" →
     nodeSort c a b = (-1)%Z ∧ nodeSort c b a = 1%Z)
  ∧ (tier c (name a) < tier c (name b) →
     nodeSort c a b = (-1)%Z ∧ nodeSort c b a = 1%Z).
Proof.
  split; [|split; [|split]].
  - intros i j Ha Hb. rewrite (nodeSort_CGPA c a b i j Ha Hb). split; [done|lia].
  - apply nodeSort_condition_No_Yes.
  - apply nodeSort_Treatment_No_Yes.
  - apply nodeSort_cross.
Qed.

Lemma nodeSort_three_tiers_witness :
  nodeSort "Anxiety" (newNode "3.5-4.0") (newNode "2.0-2.49") = 3%Z
  ∧ nodeSort "Anxiety" (newNode "Anxiety No") (newNode "Anxiety Yes") = (-1)%Z
  ∧ nodeSort "Anxiety" (newNode "Treatment No") (newNode "Treatment Yes") = (-1)%Z
  ∧ nodeSort "Anxiety" (newNode "Anxiety Yes") (newNode "Treatment No") = (-1)%Z.
Proof.
  split; [|split; [|split]].
  - destruct (nodeSort_three_tiers "Anxiety" (newNode "3.5-4.0")
                (newNode "2.0-2.49")) as (H & _).
    apply (H 4 1); reflexivity.
  - destruct (nodeSort_three_tiers "Anxiety" (newNode "Anxiety No")
                (newNode "Anxiety Yes")) as (_ & H & _).
    apply H; reflexivity.
  - destruct (nodeSort_three_tiers "Anxiety" (newNode "Treatment No")
                (newNode "Treatment Yes")) as (_ & _ & H & _).
    apply H; reflexivity.
  - destruct (nodeSort_three_tiers "Anxiety" (newNode "Anxiety Yes")
                (newNode "Treatment No")) as (_ & _ & _ & H).
    apply H. vm_compute. lia.
Defined.

End Comparator.

(* ===================================================================== *)
(** ** The selection state                                                *)
(* ===================================================================== *)

Module Selection.
Import Layout.

Lemma handle_valid (s : State) (e : Event) :
  valid s → emitted e → valid (handle s e).
Proof.
  intros [Hr Hc] He. destruct e; split; simpl in *; done.
Qed.

Lemma run_valid (es : list Event) (s : State) :
  valid s → Forall emitted es → valid (run s es).
Proof.
  revert s. induction es as [|e es IH]; intros s Hs Hes; [done|].
  inversion_clear Hes. simpl. apply IH; [by apply handle_valid|done].
Qed.

(** C8, as the specification states it, fails: a region code outside the
    seven and a condition name outside the three are stored like any
    other, and the prior state is not kept. *)
Lemma invalid_selection_is_stored :
  ("000" ∉ Venn.regionCodes)
  ∧ selectedRegion (handle initial (RegionClick "000")) = Some "000"
  ∧ handle initial (RegionClick "000") ≠ initial
  ∧ ("Stress" ∉ conditionOptions)
  ∧ selectedCondition (handle initial (ConditionChange "Stress")) = "Stress"
  ∧ handle initial (ConditionChange "Stress") ≠ initial.
Proof.
  split; [by apply (bool_decide_unpack _)|].
  split; [done|]. split; [done|].
  split; [by apply (bool_decide_unpack _)|]. done.
Qed.

(** C8 (amended): the selection state validates nothing.  Each setter
    replaces its field by the value it is given and leaves the other field
    alone, so no transition is rejected; values outside the enumerations
    are kept out by what the page can emit, the codes of the seven hit
    targets and the three options of the picker, and every state reached
    through such events holds one of the seven codes or none, and one of
    the three condition names. *)
Theorem selection_is_total_replacement :
  (∀ s r, selectedRegion (setSelectedRegion r s) = r
          ∧ selectedCondition (setSelectedRegion r s) = selectedCondition s)
  ∧ (∀ s c, selectedCondition (setSelectedCondition c s) = c
            ∧ selectedRegion (setSelectedCondition c s) = selectedRegion s)
  ∧ (∀ s, handle s Reset = setSelectedRegion None s)
  ∧ (∀ es, Forall emitted es → valid (run initial es)).
Proof.
  split; [done|]. split; [done|]. split; [done|].
  intros es Hes. apply run_valid; [|done].
  split; [done|]. by apply (bool_decide_unpack _).
Qed.

Lemma selection_is_total_replacement_witness :
  valid (run initial [RegionClick "111"; ConditionChange "Anxiety"; Reset]).
Proof.
  apply selection_is_total_replacement.
  repeat constructor; by apply (bool_decide_unpack _).
Defined.

End Selection.

(* ===================================================================== *)
(** ** The region key                                                     *)
(* ===================================================================== *)

Module Regions.
Import Venn Classes.

Lemma strict_eq_Str (v : any) (s : string) :
  strict_eq v (Str s) = true ↔ v = Str s.
Proof.
  destruct v as [| | |[]| |]; simpl; try (split; intros; done).
  rewrite String.eqb_eq. split; [by intros ->|by intros [= ->]].
Qed.

Lemma app_inj_head (p s t : string) : p +:+ s = p +:+ t → s = t.
Proof.
  intros E. apply String.eqb_eq. rewrite <- (app_eqb_tail p).
  by apply String.eqb_eq.
Qed.

Lemma keyed_regionKey (d : record) : keyed d ↔ is_Some (regionKey d).
Proof.
  unfold keyed, conditions, regionKey.
  rewrite !Forall_cons, Forall_nil. cbv [column String.append].
  destruct (yesDigit (field d "Do you have Depression?")),
    (yesDigit (field d "Do you have Anxiety?")),
    (yesDigit (field d "Do you have Panic attack?")); simpl;
    (split;
     [intros (H1 & H2 & H3 & _);
      first [by destruct H1 | by destruct H2 | by destruct H3 | by eexists]
     |intros H; first [by destruct H | by repeat split; eexists]]).
Qed.

Lemma yesDigit_digit (v : any) (s : string) :
  yesDigit v = Some s → s = "0" ∨ s = "1".
Proof.
  destruct v; simpl; intros [= <-]; auto. case_match; auto.
Qed.




End Regions.

(* ===================================================================== *)
(** ** The frequency grid                                                 *)
(* ===================================================================== *)

Module GridFacts.
Import HeatMap Grid Venn Classes Regions.

Lemma inCell_true (cg yr : string) (d : record) :
  inCell cg yr d = true
  ↔ field d "What is your CGPA?" = Str cg
    ∧ field d "Your current year of Study" = Str yr.
Proof. unfold inCell. by rewrite andb_true_iff, !strict_eq_Str. Qed.

Lemma inCell_disjoint (d : record) (cg yr cg' yr' : string) :
  inCell cg yr d = true → inCell cg' yr' d = true → cg = cg' ∧ yr = yr'.
Proof. rewrite !inCell_true. intros [-> ->] [[= ->] [= ->]]. done. Qed.

Lemma pairs_NoDup : NoDup pairs.
Proof. by apply (bool_decide_unpack _). Qed.

Lemma elem_of_pairs (cg yr : string) :
  (cg, yr) ∈ pairs ↔ cg ∈ cgpaRanges ∧ yr ∈ yearsOfStudy.
Proof.
  unfold pairs. rewrite list_elem_of_bind. split.
  - intros (c & Hy & Hc). apply list_elem_of_fmap in Hy as (y & [= -> ->] & Hy). done.
  - intros [Hc Hy]. exists cg. split; [|done]. apply list_elem_of_fmap. eauto.
Qed.

Lemma NoDup_all_equal {A} (l : list A) :
  NoDup l → (∀ x y, x ∈ l → y ∈ l → x = y) → length l ≤ 1.
Proof.
  intros Hnd Heq. destruct l as [|x [|y l]]; simpl; try lia.
  exfalso. apply NoDup_cons in Hnd as [Hx _]. apply Hx.
  rewrite (Heq x y); set_solver.
Qed.

Lemma cellsOf_at_most_one (d : record) : length (cellsOf d) ≤ 1.
Proof.
  apply NoDup_all_equal.
  - apply NoDup_filter, pairs_NoDup.
  - intros [cg yr] [cg' yr'] [H _]%list_elem_of_filter [H' _]%list_elem_of_filter.
    simpl in *. by destruct (inCell_disjoint d cg yr cg' yr' H H') as [-> ->].
Qed.

Lemma cellsOf_onGrid (d : record) :
  length (cellsOf d) = if decide (onGrid d) then 1 else 0.
Proof.
  pose proof (cellsOf_at_most_one d) as Hle. case_decide as Hg.
  - destruct Hg as [(cg & Hcg & Hin)%list_elem_of_fmap (yr & Hyr & Hin')%list_elem_of_fmap].
    assert ((cg, yr) ∈ cellsOf d) as Hp.
    { apply list_elem_of_filter. split; [by apply inCell_true|by apply elem_of_pairs]. }
    destruct (cellsOf d); [by apply elem_of_nil in Hp|simpl in *; lia].
  - destruct (cellsOf d) as [|[cg yr] l] eqn:E; [done|]. exfalso. apply Hg.
    assert ((cg, yr) ∈ cellsOf d) as Hp by (rewrite E; left).
    apply list_elem_of_filter in Hp as [[H1 H2]%inCell_true [Hc Hy]%elem_of_pairs].
    simpl in *. split; apply list_elem_of_fmap; eauto.
Qed.

Lemma length_filter_cons {A} (P : A → Prop) `{!∀ x, Decision (P x)} x l :
  length (filter P (x :: l)) = (if decide (P x) then 1 else 0) + length (filter P l).
Proof. rewrite filter_cons. by case_decide. Qed.

(** Counting per cell and counting per record give the same total. *)
Lemma double_count {A B} (f : A → B → bool) (ps : list A) (l : list B) :
  sum_list_with (λ p, length (filter (λ d, f p d = true) l)) ps
  = sum_list_with (λ d, length (filter (λ p, f p d = true) ps)) l.
Proof.
  induction l as [|d l IH].
  - induction ps as [|p ps IHp]; [done|]. cbn [sum_list_with]. by rewrite IHp.
  - cbn [sum_list_with]. rewrite <- IH. clear IH.
    induction ps as [|p ps IHp]; [done|]. cbn [sum_list_with].
    rewrite !length_filter_cons, IHp. repeat case_decide; lia.
Qed.

Lemma frequencyCells_pairs (filtered : list record) :
  frequencyCells filtered
  = (λ p, {| cgpa := p.1; year := p.2;
             count := length (filter (λ d, inCell p.1 p.2 d = true) filtered) |})
    <$> pairs.
Proof. reflexivity. Qed.

Lemma sum_list_with_fmap {A B} (g : A → B) (f : B → nat) (l : list A) :
  sum_list_with f (g <$> l) = sum_list_with (f ∘ g) l.
Proof. induction l as [|x l IH]; [done|]. cbn. by rewrite IH. Qed.

Lemma totalCount_per_record (filtered : list record) :
  totalCount (frequencyCells filtered)
  = sum_list_with (λ d, length (cellsOf d)) filtered.
Proof.
  unfold totalCount. rewrite frequencyCells_pairs, sum_list_with_fmap.
  apply (double_count (λ p d, inCell p.1 p.2 d)).
Qed.

Lemma totalCount_onGrid (filtered : list record) :
  totalCount (frequencyCells filtered) = length (filter onGrid filtered).
Proof.
  rewrite totalCount_per_record.
  induction filtered as [|d l IH]; [done|]. cbn [sum_list_with].
  rewrite length_filter_cons, IH, cellsOf_onGrid. done.
Qed.


Lemma filterE_length {A} (f : A → option bool) (l r : list A) :
  filterE f l = Some r → length r ≤ length l.
Proof.
  revert r. induction l as [|x l IH]; simpl; intros r H; [by simplify_eq|].
  destruct (f x) as [b|]; [|done]. simpl in H.
  destruct (filterE f l) as [r'|]; [|done]. simpl in H. simplify_eq.
  specialize (IH r' eq_refl). destruct b; simpl; lia.
Qed.

(** C10: a record is counted in at most one cell of the grid.  Membership
    in a cell is equality of the record's two cells with the cell's two
    labels, so two cells that both count a record are the same cell; the
    twenty pairs of labels are distinct; and the total over the grid is at
    most the number of filtered records, hence of records. *)
Theorem grid_cells_are_disjoint :
  (∀ (d : record) (cg yr cg' yr' : string),
     inCell cg yr d = true → inCell cg' yr' d = true → cg = cg' ∧ yr = yr')
  ∧ NoDup pairs
  ∧ (∀ d : record, length (cellsOf d) ≤ 1)
  ∧ (∀ filtered : list record,
       totalCount (frequencyCells filtered) ≤ length filtered)
  ∧ (∀ (selectedRegion : option string) (cleanData : list record) cells,
       frequencyData selectedRegion cleanData = Some cells →
       totalCount cells ≤ length cleanData).
Proof.
  split; [exact inCell_disjoint|]. split; [exact pairs_NoDup|].
  split; [exact cellsOf_at_most_one|].
  assert (∀ filtered : list record,
            totalCount (frequencyCells filtered) ≤ length filtered) as Htotal.
  { intros filtered. rewrite totalCount_onGrid. apply length_filter. }
  split; [exact Htotal|].
  intros sel data cells. unfold frequencyData.
  destruct (filteredData sel data) as [filtered|] eqn:E; [|done].
  intros [= <-]. etrans; [apply Htotal|].
  unfold filteredData in E. destruct sel as [code|]; [|by simplify_eq].
  destruct (truthy (Some code)); [|by simplify_eq].
  by eapply filterE_length.
Qed.

Lemma grid_cells_are_disjoint_witness :
  totalCount (frequencyCells [Samples.scenarioA_file; Samples.scenarioA]) ≤ 2
  ∧ ∀ cells,
      frequencyData (Some "101") [Samples.scenarioA_file; Samples.healthy] = Some cells →
      totalCount cells ≤ 2.
Proof.
  destruct grid_cells_are_disjoint as (_ & _ & _ & H1 & H2).
  split; [apply (H1 [Samples.scenarioA_file; Samples.scenarioA])|].
  intros cells. apply (H2 (Some "101") [Samples.scenarioA_file; Samples.healthy]).
Defined.

End GridFacts.

(* ===================================================================== *)
(** ** Region counts                                                      *)
(* ===================================================================== *)

Module Counts.
Import HeatMap Grid Venn Classes Regions GridFacts.

Lemma bump_of_nat (k n : nat) : Nat.iter n bump (of_nat k) = of_nat (k + n).
Proof.
  induction n as [|n IH]; simpl.
  - f_equal. lia.
  - rewrite IH. unfold bump. rewrite add_of_nat. f_equal. lia.
Qed.

Lemma bump_NaN (n : nat) : Nat.iter n bump NaN = NaN.
Proof. induction n as [|n IH]; simpl; [done|]. by rewrite IH. Qed.

Lemma inRegion_cons (code k : string) (d : record) (data : list record) :
  regionKey d = Some k →
  inRegion code (d :: data)
  = if decide (k = code) then d :: inRegion code data else inRegion code data.
Proof.
  intros Hk. unfold inRegion. rewrite filter_cons, Hk.
  repeat case_decide; simplify_eq; done.
Qed.

(** What [countInto] leaves under each key: the value it found there,
    incremented once per record of that key. *)
Lemma countInto_lookup (data : list record) (m : gmap string number) :
  Forall keyed data →
  ∃ m', countInto m data = Some m'
    ∧ ∀ code, m' !! code
              = match length (inRegion code data) with
                | 0 => m !! code
                | n => Some (Nat.iter n bump (to_number_opt (m !! code)))
                end.
Proof.
  intros Hdata. revert m.
  induction Hdata as [|d data Hd _ IH]; intros m; simpl.
  - by exists m.
  - apply keyed_regionKey in Hd as [k Hk]. rewrite Hk. simpl.
    destruct (IH (increment m k)) as (m' & Hm' & Hlook).
    exists m'. split; [done|]. intros code.
    rewrite Hlook, (inRegion_cons code k d data Hk). unfold increment.
    case_decide as E.
    + subst code. rewrite lookup_insert_eq. simpl.
      destruct (length (inRegion k data)) as [|n]; [done|].
      do 2 f_equal. symmetry. apply Nat.iter_succ_r.
    + by rewrite lookup_insert_ne.
Qed.


Lemma calculateFrequencies_lookup (data : list record) :
  Forall keyed data →
  ∃ m, calculateFrequencies data = Some m
    ∧ (∀ code, code ∈ regionCodes →
         m !! code = Some (of_nat (length (inRegion code data))))
    ∧ m !! "000" = if decide (inRegion "000" data = []) then None else Some NaN.
Proof.
  intros Hdata. destruct (countInto_lookup data zeroCombinations Hdata)
    as (m & Hm & Hlook).
  exists m. split; [done|]. split.
  - intros code Hcode. rewrite Hlook.
    assert (zeroCombinations !! code = Some (of_nat 0)) as ->.
    { unfold regionCodes in Hcode.
      repeat (apply elem_of_cons in Hcode as [-> | Hcode]; [done|]).
      by apply elem_of_nil in Hcode. }
    destruct (length (inRegion code data)) as [|n] eqn:E; [done|].
    simpl to_number_opt. by rewrite bump_of_nat.
  - rewrite Hlook. change (zeroCombinations !! "000") with (@None number).
    destruct (inRegion "000" data) as [|d l]; [done|].
    rewrite decide_False; [|done]. simpl. by rewrite bump_NaN.
Qed.




End Counts.

(* ===================================================================== *)
(** ** Grid totals and order of the records                               *)
(* ===================================================================== *)

Module Totals.
Import HeatMap Grid Venn Classes Regions GridFacts Counts.


Lemma fmap_Some_eq {A B} (f : A → B) (x : A) : f <$> Some x = Some (f x).
Proof. reflexivity. Qed.

Lemma frequencyData_None (data : list record) :
  frequencyData None data = Some (frequencyCells data).
Proof. reflexivity. Qed.





Lemma increment_comm (m : gmap string number) (a b : string) :
  increment (increment m a) b = increment (increment m b) a.
Proof.
  destruct (decide (a = b)) as [->|Hne]; [done|]. unfold increment.
  rewrite !lookup_insert_ne by done. by apply insert_insert_ne.
Qed.

Lemma countInto_perm (data data' : list record) :
  data ≡ₚ data' → ∀ m, countInto m data = countInto m data'.
Proof.
  induction 1 as [|d l l' _ IH|x y l|l l' l'' _ IH _ IH']; intros m.
  - done.
  - simpl. destruct (regionKey d); [apply IH|done].
  - simpl. destruct (regionKey x), (regionKey y); simpl; try done.
    by rewrite increment_comm.
  - by rewrite IH.
Qed.

Lemma filterE_perm {A} (f : A → option bool) (l l' : list A) :
  l ≡ₚ l' →
  match filterE f l, filterE f l' with
  | Some r, Some r' => r ≡ₚ r'
  | None, None => True
  | _, _ => False
  end.
Proof.
  induction 1 as [|x l l' _ IH|x y l|l l' l'' _ IH _ IH']; simpl.
  - done.
  - destruct (f x) as [b|]; simpl; [|done].
    destruct (filterE f l), (filterE f l'); simpl; try done.
    destruct b; by rewrite ?IH.
  - destruct (f x) as [b|], (f y) as [b'|]; simpl; try done.
    destruct (filterE f l); simpl; [|done].
    destruct b, b'; try done. apply perm_swap.
  - destruct (filterE f l), (filterE f l'), (filterE f l''); try done.
    by etrans.
Qed.

Lemma frequencyCells_perm (r r' : list record) :
  r ≡ₚ r' → frequencyCells r = frequencyCells r'.
Proof.
  intros Hperm. rewrite !frequencyCells_pairs. apply list_fmap_ext.
  intros _ [cg yr] _. simpl. f_equal. by rewrite Hperm.
Qed.

(** C7: the region counts and the frequency grid do not depend on the
    order of the records: a permutation of the collection gives the same
    count object and, for the same active region, the same list of cells;
    and when the key of some record cannot be read, both orders raise. *)
Theorem aggregation_ignores_order (data data' : list record)
    (selectedRegion : option string) :
  data ≡ₚ data' →
  calculateFrequencies data = calculateFrequencies data'
  ∧ frequencyData selectedRegion data = frequencyData selectedRegion data'.
Proof.
  intros Hperm. split; [by apply countInto_perm|].
  unfold frequencyData, filteredData.
  destruct selectedRegion as [code|];
    [destruct (truthy (Some code))|];
    try (by rewrite !fmap_Some_eq, (frequencyCells_perm _ _ Hperm)).
  pose proof (filterE_perm (λ d, k ← regionKey d; Some (String.eqb k code))
                _ _ Hperm) as H.
  destruct (filterE _ data) as [r|], (filterE _ data') as [r'|]; try done.
  by rewrite !fmap_Some_eq, (frequencyCells_perm _ _ H).
Qed.

Lemma aggregation_ignores_order_witness :
  calculateFrequencies [Samples.scenarioA_file; Samples.healthy]
  = calculateFrequencies [Samples.healthy; Samples.scenarioA_file]
  ∧ frequencyData (Some "101") [Samples.scenarioA_file; Samples.healthy]
    = frequencyData (Some "101") [Samples.healthy; Samples.scenarioA_file].
Proof.
  apply aggregation_ignores_order. apply perm_swap.
Defined.

End Totals.

(* ===================================================================== *)
(** ** The flow graph                                                     *)
(* ===================================================================== *)

Module Builder.
Import Sankey Flow Hops.

Lemma addNode_registry (nm : string) (g : Graph) :
  registry g →
  ∃ g', addNode nm g = (newNode nm, g')
        ∧ registry g'
        ∧ linkMap g' = linkMap g
        ∧ ∀ x, x ∈ name <$> nodes g' ↔ x = nm ∨ x ∈ name <$> nodes g.
Proof.
  intros (Hnd & Hnew & Hmap). unfold addNode. rewrite Hmap.
  case_decide as Hin.
  - exists g. repeat split; try done; [naive_solver|].
    intros [-> | ?]; done.
  - eexists. split; [done|]. unfold registry. simpl. rewrite !fmap_app. simpl.
    split; [|split; [done|]].
    + split; [|split].
      * apply NoDup_app. split; [done|]. split; [|apply NoDup_singleton].
        intros x Hx ->%list_elem_of_singleton. done.
      * apply Forall_app. split; [done|]. by apply Forall_singleton.
      * intros x. destruct (decide (x = nm)) as [->|Hne].
        -- rewrite lookup_insert_eq, decide_True; [done|]. set_solver.
        -- rewrite lookup_insert_ne, Hmap by done. repeat case_decide; set_solver.
    + intros x. set_solver.
Qed.

Lemma processRecord_registry (c : string) (g : Graph) (d : record) :
  registry g →
  registry (processRecord c g d)
  ∧ linkMap (processRecord c g d)
    = addHop (addHop (linkMap g) (firstHop c d)) (secondHop c d)
  ∧ ∀ x, x ∈ name <$> nodes (processRecord c g d)
         ↔ x ∈ namesOf c d ∨ x ∈ name <$> nodes g.
Proof.
  intros Hg. unfold processRecord.
  destruct (addNode_registry (cgpaRange d) g Hg) as (g1 & -> & Hg1 & Hl1 & Hn1).
  destruct (addNode_registry (conditionName c d) g1 Hg1) as (g2 & -> & Hg2 & Hl2 & Hn2).
  destruct (addNode_registry (treatmentName d) g2 Hg2) as (g3 & -> & Hg3 & Hl3 & Hn3).
  simpl. rewrite Hl3, Hl2, Hl1. split; [|split; [done|]].
  - destruct Hg3 as (? & ? & ?). done.
  - intros x. rewrite Hn3, Hn2, Hn1. unfold namesOf. set_solver.
Qed.

Lemma fold_processRecord (c : string) (data : list record) (g : Graph) :
  registry g →
  registry (fold_left (processRecord c) data g)
  ∧ linkMap (fold_left (processRecord c) data g)
    = fold_left addHop (hops c data) (linkMap g)
  ∧ ∀ x, x ∈ name <$> nodes (fold_left (processRecord c) data g)
         ↔ (∃ d, d ∈ data ∧ x ∈ namesOf c d) ∨ x ∈ name <$> nodes g.
Proof.
  revert g. induction data as [|d data IH]; intros g Hg.
  - simpl. split; [done|]. split; [done|]. intros x. set_solver.
  - destruct (processRecord_registry c g d Hg) as (Hg' & Hl & Hn).
    destruct (IH _ Hg') as (IH1 & IH2 & IH3). simpl.
    split; [done|]. split; [by rewrite IH2, Hl|].
    intros x. rewrite IH3, Hn. set_solver.
Qed.

Lemma emptyGraph_registry : registry emptyGraph.
Proof.
  split; [apply NoDup_nil_2|]. split; [done|]. intros nm. simpl.
  by rewrite lookup_empty.
Qed.

End Builder.

Module Tally.
Import Sankey Flow Hops Shapes.

Lemma fmap_ext_in {A B} (f g : A → B) (l : list A) :
  (∀ x, x ∈ l → f x = g x) → f <$> l = g <$> l.
Proof.
  induction l as [|x l IH]; intros H; [done|]. rewrite !fmap_cons.
  rewrite (H x) by left. rewrite IH; [done|]. intros y Hy. apply H. by right.
Qed.

Lemma filter_fmap {A B} (f : A → B) (P : B → Prop) `{!∀ y, Decision (P y)}
    (l : list A) :
  filter P (f <$> l) = f <$> filter (λ x, P (f x)) l.
Proof.
  induction l as [|x l IH]; [done|]. rewrite fmap_cons, !filter_cons, IH.
  by case_decide.
Qed.

Lemma elem_of_distinct (p : string * string) ps : p ∈ distinct ps ↔ p ∈ ps.
Proof. unfold distinct. by rewrite elem_of_reverse, elem_of_remove_dups, elem_of_reverse. Qed.

Lemma NoDup_distinct ps : NoDup (distinct ps).
Proof. unfold distinct. rewrite reverse_Permutation. apply NoDup_remove_dups. Qed.

Lemma distinct_snoc ps (p : string * string) :
  distinct (ps ++ [p]) = if decide (p ∈ ps) then distinct ps else distinct ps ++ [p].
Proof.
  unfold distinct. rewrite reverse_snoc. simpl.
  destruct (decide_rel elem_of p (reverse ps)) as [Hin|Hin];
    rewrite elem_of_reverse in Hin.
  - by rewrite decide_True.
  - by rewrite decide_False, reverse_cons.
Qed.

Lemma occurrences_snoc (q p : string * string) ps :
  occurrences q (ps ++ [p])
  = occurrences q ps + (if decide (p = q) then 1 else 0).
Proof.
  unfold occurrences. rewrite filter_app, length_app, filter_cons, filter_nil.
  by case_decide.
Qed.

Lemma occurrences_cons (q p : string * string) ps :
  occurrences q (p :: ps)
  = (if decide (p = q) then 1 else 0) + occurrences q ps.
Proof. unfold occurrences. by rewrite GridFacts.length_filter_cons. Qed.

Lemma occurrences_absent (q : string * string) ps : q ∉ ps → occurrences q ps = 0.
Proof.
  intros Hq. unfold occurrences.
  induction ps as [|p ps IH]; [done|]. rewrite filter_cons.
  apply not_elem_of_cons in Hq as [Hne Hq]. rewrite decide_False by done. auto.
Qed.

Lemma occurrences_present (q : string * string) ps : q ∈ ps → 1 ≤ occurrences q ps.
Proof.
  induction 1 as [p ps|p q' ps _ IH]; rewrite occurrences_cons.
  - rewrite decide_True by done. lia.
  - lia.
Qed.

Lemma has_fmap (f : string * string → CustomLink) (l : list (string * string))
    (k : string) :
  has ((λ q, (key q, f q)) <$> l) k = true ↔ ∃ q, q ∈ l ∧ key q = k.
Proof.
  unfold has. rewrite existsb_exists. split.
  - intros (e & He & Hk). apply list_elem_of_In, list_elem_of_fmap in He
      as (q & -> & Hq). apply String.eqb_eq in Hk. eauto.
  - intros (q & Hq & <-). exists (key q, f q). split; [|apply String.eqb_refl].
    apply list_elem_of_In, list_elem_of_fmap. eauto.
Qed.

Lemma bump_of_nat_1 (n : nat) : bump (of_nat n) = of_nat (n + 1).
Proof. apply add_of_nat. Qed.

(** The closed form of the link map: one entry per distinct pair, in the
    order the pairs are first met, weighted by the occurrences of the
    pair, as long as distinct pairs have distinct keys. *)
Lemma tally (ps : list (string * string)) :
  (∀ p q, p ∈ ps → q ∈ ps → key p = key q → p = q) →
  fold_left addHop ps [] = (λ p, (key p, linkOf ps p)) <$> distinct ps.
Proof.
  induction ps as [|p ps IH] using rev_ind; intros Hinj; [done|].
  rewrite fold_left_app. simpl. rewrite IH; clear IH.
  2:{ intros x y Hx Hy. apply Hinj; apply elem_of_app; by left. }
  assert (∀ q, q ∈ ps → key q = key p → q = p) as Hp.
  { intros q Hq. apply Hinj; apply elem_of_app; [by left|right; left]. }
  unfold addHop, addLink. rewrite distinct_snoc.
  destruct (has _ (key p)) eqn:Ehas.
  - apply has_fmap in Ehas as (q & Hq & Hk).
    apply (proj1 (elem_of_distinct _ _)) in Hq.
    assert (p ∈ ps) as Hin by (by rewrite <- (Hp q Hq Hk)).
    rewrite decide_True by done.
    unfold increment. rewrite <- list_fmap_compose. apply fmap_ext_in.
    intros x Hx. apply (proj1 (elem_of_distinct _ _)) in Hx.
    unfold compose, linkOf. cbn [fst snd source target value].
    rewrite occurrences_snoc.
    destruct (String.eqb (key x) (key p)) eqn:E.
    + apply String.eqb_eq in E. rewrite (Hp x Hx E), decide_True by done.
      by rewrite bump_of_nat_1.
    + apply String.eqb_neq in E. rewrite decide_False by (by intros ->).
      by rewrite Nat.add_0_r.
  - assert (p ∉ ps) as Hnew.
    { intros Hin. apply not_true_iff_false in Ehas. apply Ehas.
      apply has_fmap. exists p. by rewrite elem_of_distinct. }
    rewrite decide_False by done. rewrite fmap_app. f_equal.
    + apply fmap_ext_in. intros x Hx.
      apply (proj1 (elem_of_distinct _ _)) in Hx. unfold linkOf.
      rewrite occurrences_snoc, decide_False by (by intros ->).
      by rewrite Nat.add_0_r.
    + simpl. unfold linkOf. rewrite occurrences_snoc, decide_True by done.
      by rewrite occurrences_absent.
Qed.

Lemma sumValues_linkOf ps (u : list (string * string)) :
  sumValues (linkOf ps <$> u) = of_nat (sum_list_with (λ p, occurrences p ps) u).
Proof.
  induction u as [|p u IH]; [done|]. rewrite fmap_cons.
  unfold sumValues in *. cbn [fold_right sum_list_with]. rewrite IH.
  unfold linkOf at 1. cbn [value]. by rewrite add_of_nat.
Qed.

Lemma indicator_sum (Q : string * string → Prop) `{!∀ p, Decision (Q p)}
    (x : string * string) (u : list (string * string)) :
  NoDup u → x ∈ u →
  sum_list_with (λ p, if decide (x = p) then 1 else 0) (filter Q u)
  = if decide (Q x) then 1 else 0.
Proof.
  induction 1 as [|p u Hp Hnd IH]; intros Hx; [by apply elem_of_nil in Hx|].
  assert (x ∉ u → sum_list_with (λ p, if decide (x = p) then 1 else 0)
                     (filter Q u) = 0) as Hzero.
  { clear. induction u as [|q u IH]; intros Hx; [done|].
    apply not_elem_of_cons in Hx as [Hne Hx]. rewrite filter_cons.
    destruct (decide (Q q)); [|auto].
    cbn [sum_list_with]. rewrite decide_False by done. auto. }
  rewrite filter_cons. apply elem_of_cons in Hx as [-> | Hx].
  - destruct (decide (Q p)) as [HQ|HQ]; [|by apply Hzero].
    cbn [sum_list_with]. rewrite decide_True by done. by rewrite Hzero.
  - assert (x ≠ p) by (by intros ->).
    destruct (decide (Q p)) as [HQ|HQ]; [|by apply IH].
    cbn [sum_list_with]. rewrite decide_False by done. by apply IH.
Qed.

(** The weights of the distinct pairs that pass a test add up to the
    number of pairs, distinct or not, that pass it. *)
Lemma occurrences_sum (Q : string * string → Prop) `{!∀ p, Decision (Q p)}
    (ps u : list (string * string)) :
  NoDup u → (∀ p, p ∈ ps → p ∈ u) →
  sum_list_with (λ p, occurrences p ps) (filter Q u) = length (filter Q ps).
Proof.
  intros Hnd. induction ps as [|x ps IH]; intros Hcover.
  - induction (filter Q u) as [|p l IHl]; [done|]. simpl. by rewrite IHl.
  - rewrite GridFacts.length_filter_cons, <- IH
      by (intros p Hp; apply Hcover; by right).
    rewrite <- (indicator_sum Q x u Hnd) by (apply Hcover; left).
    clear. induction (filter Q u) as [|p l IHl]; [done|].
    simpl. rewrite occurrences_cons, IHl. lia.
Qed.

End Tally.

Module Keys.
Import Sankey Flow Hops Shapes.

Lemma string_app_assoc (a b c : string) : (a +:+ b) +:+ c = a +:+ b +:+ c.
Proof. induction a as [|x a IH]; [done|]. exact (f_equal (String x) IH). Qed.

(** Splits a membership in a list that is written out. *)
Ltac cases_in H :=
  repeat (apply elem_of_cons in H as [-> | H]);
  try (by apply elem_of_nil in H).

Lemma yesNo_cases (v : any) : yesNo v ∈ ["Yes"; "No"].
Proof. unfold yesNo. destruct (strict_eq v (Str "Yes")); set_solver. Qed.

Lemma hops_shape (c : string) (data : list record) (p : string * string) :
  p ∈ hops c data → hop c p.
Proof.
  unfold hops. rewrite list_elem_of_bind. intros (d & Hp & _).
  cases_in Hp.
  - apply hop_first; [apply CgpaBins.getCgpabin_cases|apply yesNo_cases].
  - apply hop_second; apply yesNo_cases.
Qed.

(** Pairs of the two shapes that differ have different keys. *)
Lemma key_inj (c : string) (p q : string * string) :
  hop c p → hop c q → key p = key q → p = q.
Proof.
  intros [b1 y1 Hb1 Hy1 | y1 t1 Hy1 Ht1] [b2 y2 Hb2 Hy2 | y2 t2 Hy2 Ht2];
    unfold key; cbn [fst snd]; intros H.
  - cases_in Hy1; cases_in Hy2;
      unfold cgpaBinLabels in Hb1, Hb2; simpl in Hb1, Hb2;
      cases_in Hb1; cases_in Hb2; simpl in H; try discriminate H;
      simplify_eq/=; try done;
      match goal with E : c +:+ _ = c +:+ _ |- _ => by apply Regions.app_inj_head in E end.
  - exfalso. apply (f_equal String.length) in H.
    rewrite !string_length_app in H.
    cases_in Hy1; cases_in Hy2; cases_in Ht2;
      unfold cgpaBinLabels in Hb1; simpl in Hb1; cases_in Hb1; simpl in H; lia.
  - exfalso. apply (f_equal String.length) in H.
    rewrite !string_length_app in H.
    cases_in Hy1; cases_in Hy2; cases_in Ht1;
      unfold cgpaBinLabels in Hb2; simpl in Hb2; cases_in Hb2; simpl in H; lia.
  - rewrite !string_app_assoc in H. apply Regions.app_inj_head in H.
    cases_in Hy1; cases_in Hy2; cases_in Ht1; cases_in Ht2; simpl in H;
      by try discriminate H.
Qed.

Lemma hops_inj (c : string) (data : list record) (p q : string * string) :
  p ∈ hops c data → q ∈ hops c data → key p = key q → p = q.
Proof. intros Hp Hq. apply (key_inj c); by eapply hops_shape. Qed.

Lemma hops_cons (c : string) (d : record) (data : list record) :
  hops c (d :: data) = firstHop c d :: secondHop c d :: hops c data.
Proof. reflexivity. Qed.

Lemma bin_is_no_condition (c : string) (d d' : record) :
  cgpaRange d ≠ conditionName c d'.
Proof.
  unfold conditionName. intros E.
  pose proof (CgpaBins.getCgpabin_cases (parseFloat (field d "What is your CGPA?")))
    as Hb. fold (cgpaRange d) in Hb. rewrite E in Hb.
  apply elem_of_app in Hb as [Hb | Hb].
  - pose proof (Comparator.conditionName_not_CGPA c
        (yesNo (field d' ("Do you have " +:+ c +:+ "?")))) as Hn.
    unfold isCGPA, includes in Hn. apply not_true_iff_false in Hn. apply Hn.
    apply existsb_exists. eexists. split; [by apply list_elem_of_In|].
    apply String.eqb_refl.
  - apply list_elem_of_singleton in Hb. peel c.
Qed.

Lemma firstHop_secondHop (c : string) (d : record) : firstHop c d ≠ secondHop c d.
Proof. intros [= E _]. by apply bin_is_no_condition in E. Qed.

(** The links of the graph, in closed form. *)
Lemma links_buildGraph (c : string) (data : list record) :
  links (buildGraph c data)
  = linkOf (hops c data) <$> distinct (hops c data).
Proof.
  unfold links, buildGraph.
  destruct (Builder.fold_processRecord c data emptyGraph Builder.emptyGraph_registry)
    as (_ & -> & _).
  simpl (linkMap emptyGraph). rewrite Tally.tally by apply hops_inj.
  change (map snd) with (fmap (M := list) (@snd string CustomLink)).
  by rewrite <- list_fmap_compose.
Qed.

Lemma occurrences_deriving (c : string) (p : string * string) (data : list record) :
  occurrences p (hops c data) = length (deriving c p data).
Proof.
  unfold deriving. induction data as [|d data IH]; [done|].
  rewrite hops_cons, !Tally.occurrences_cons, IH, GridFacts.length_filter_cons.
  pose proof (firstHop_secondHop c d).
  repeat case_decide; try lia; naive_solver.
Qed.

End Keys.

Module Weights.
Import Sankey Flow Hops Shapes Keys.

Lemma app_cons (a : ascii) (s t : string) : String a s +:+ t = String a (s +:+ t).
Proof. reflexivity. Qed.

Lemma app_nil_l (s : string) : "" +:+ s = s.
Proof. reflexivity. Qed.

Lemma treatment_prefix (c s r : string) :
  c +:+ " " +:+ s = "Treatment " +:+ r → ∃ c', c = "Treatment" +:+ c'.
Proof.
  intros E. rewrite ?app_cons, ?app_nil_l in E.
  do 9 (destruct c as [|? c];
        [rewrite ?app_cons, ?app_nil_l in E; discriminate E
        |rewrite app_cons in E; injection E as -> E]).
  by exists c.
Qed.

Lemma conditionName_not_Treatment (c : string) (d : record) :
  startsWith c "Treatment" = false → isTreatment (conditionName c d) = false.
Proof.
  intros Hc. unfold conditionName.
  destruct (isTreatment _) eqn:E; [|done].
  apply prefix_inv in E as [r E].
  apply treatment_prefix in E as [c' ->].
  unfold startsWith in Hc. by rewrite prefix_app in Hc.
Qed.

Lemma conditionName_not_Unknown (c : string) (d : record) :
  isUnknown (conditionName c d) = false.
Proof.
  unfold isUnknown, conditionName. apply String.eqb_neq. intros E.
  pose proof (yesNo_cases (field d ("Do you have " +:+ c +:+ "?"))) as Hy.
  destruct (yesNo _); cases_in Hy; peel c.
Qed.

Lemma count_sources (P : string → bool) (c : string) (data : list record) :
  (∀ d, P (conditionName c d) = false) →
  length (filter (λ p, P p.1 = true) (hops c data))
  = length (filter (λ d, P (cgpaRange d) = true) data).
Proof.
  intros Hcond. induction data as [|d data IH]; [done|].
  rewrite hops_cons, !GridFacts.length_filter_cons, IH. simpl.
  rewrite (decide_False (P := P (conditionName c d) = true))
    by (by rewrite Hcond).
  repeat case_decide; done.
Qed.

Lemma count_targets (P : string → bool) (c : string) (data : list record) :
  (∀ d, P (conditionName c d) = false) → (∀ d, P (treatmentName d) = true) →
  length (filter (λ p, P p.2 = true) (hops c data)) = length data.
Proof.
  intros Hcond Htreat. induction data as [|d data IH]; [done|].
  rewrite hops_cons, !GridFacts.length_filter_cons, IH. simpl.
  rewrite decide_False by (by rewrite Hcond).
  by rewrite decide_True by (by rewrite Htreat).
Qed.

(** The weights of the links whose source, or target, passes a test on
    names add up to the number of derived pairs that pass it. *)
Lemma sumValues_from (P : string → bool) (c : string) (data : list record) :
  sumValues (linksFrom P (links (buildGraph c data)))
  = of_nat (length (filter (λ p, P p.1 = true) (hops c data))).
Proof.
  unfold linksFrom. rewrite links_buildGraph, Tally.filter_fmap.
  rewrite Tally.sumValues_linkOf. f_equal.
  apply (Tally.occurrences_sum (λ p, P p.1 = true));
    [apply Tally.NoDup_distinct|]. intros p. by rewrite Tally.elem_of_distinct.
Qed.

Lemma sumValues_into (P : string → bool) (c : string) (data : list record) :
  sumValues (linksInto P (links (buildGraph c data)))
  = of_nat (length (filter (λ p, P p.2 = true) (hops c data))).
Proof.
  unfold linksInto. rewrite links_buildGraph, Tally.filter_fmap.
  rewrite Tally.sumValues_linkOf. f_equal.
  apply (Tally.occurrences_sum (λ p, P p.2 = true));
    [apply Tally.NoDup_distinct|]. intros p. by rewrite Tally.elem_of_distinct.
Qed.

Lemma unknown_iff_not_binned (d : record) :
  isUnknown (cgpaRange d) = true ↔ ¬ binned d.
Proof.
  unfold binned.
  pose proof (CgpaBins.getCgpabin_cases (parseFloat (field d "What is your CGPA?")))
    as Hb. fold (cgpaRange d) in Hb.
  unfold cgpaBinLabels in Hb. simpl in Hb.
  cases_in Hb; vm_compute; intuition congruence.
Qed.

Lemma elem_of_endpoints (c : string) (data : list record) (p : string * string) :
  p ∈ endpoints <$> links (buildGraph c data) ↔ p ∈ hops c data.
Proof.
  rewrite links_buildGraph, <- list_fmap_compose.
  rewrite (Tally.fmap_ext_in _ id) by (by intros []).
  by rewrite list_fmap_id, Tally.elem_of_distinct.
Qed.

Lemma binned_parseable (d : record) : binned d → parseable d.
Proof.
  unfold binned, parseable, cgpaRange. intros Hb E. by rewrite E in Hb.
Qed.

End Weights.

Module FlowGraph.
Import Sankey Flow Hops Shapes Keys Weights.

(** C5: the links of the flow graph have pairwise different (source,
    target) pairs, which are exactly the pairs the records derive; the
    weight of a link is the number of records that derive its pair, which
    is at least 1; the nodes have pairwise different names, which are
    exactly the names the records derive; and the two records of scenario
    B, of CGPA 3.6 and 3.7, give one node "3.5-4.0" whose outgoing link
    has weight 2. *)
Theorem flow_links_are_tallied (c : string) (data : list record) :
  NoDup (endpoints <$> links (buildGraph c data))
  ∧ (∀ p, p ∈ endpoints <$> links (buildGraph c data) ↔ p ∈ hops c data)
  ∧ Forall (λ l, ∃ n : nat, value l = of_nat n ∧ 1 ≤ n
                            ∧ n = length (deriving c (endpoints l) data))
      (links (buildGraph c data))
  ∧ NoDup (name <$> nodes (buildGraph c data))
  ∧ (∀ x, x ∈ name <$> nodes (buildGraph c data)
          ↔ ∃ d, d ∈ data ∧ x ∈ namesOf c d)
  ∧ filter (λ n, name n = "3.5-4.0") (nodes (buildGraph "Depression" Samples.scenarioB))
    = [newNode "3.5-4.0"]
  ∧ value <$> linksFrom (String.eqb "3.5-4.0")
                (links (buildGraph "Depression" Samples.scenarioB))
    = [of_nat 2].
Proof.
  assert (endpoints <$> links (buildGraph c data) = distinct (hops c data)) as Hends.
  { rewrite links_buildGraph, <- list_fmap_compose.
    rewrite <- (list_fmap_id (distinct _)) at 2.
    apply Tally.fmap_ext_in. by intros []. }
  split; [rewrite Hends; apply Tally.NoDup_distinct|].
  split; [intros p; rewrite Hends; apply Tally.elem_of_distinct|].
  split.
  { rewrite links_buildGraph. apply Forall_fmap, Forall_forall.
    intros [s t] Hp. apply (proj1 (Tally.elem_of_distinct _ _)) in Hp.
    exists (occurrences (s, t) (hops c data)). split; [done|].
    split; [by apply Tally.occurrences_present|].
    apply occurrences_deriving. }
  destruct (Builder.fold_processRecord c data emptyGraph Builder.emptyGraph_registry)
    as ((Hnd & _ & _) & _ & Hnames).
  split; [exact Hnd|]. split.
  { intros x. unfold buildGraph. rewrite Hnames. simpl.
    rewrite elem_of_nil. tauto. }
  split; by vm_compute.
Qed.

(** C1, as the specification states it, fails.  The record of scenario D,
    whose CGPA cell "N/A" does not parse, is not kept out of the first
    stage: it is binned "Unknown", a node of that name is created and an
    edge leaves it.  With a second record whose CGPA parses to 5, outside
    every range, one record has a parseable CGPA, while the weights out of
    the five labelled bins sum to 0 and those out of all first-stage
    nodes, "Unknown" included, sum to 2. *)
Lemma unparseable_cgpa_is_binned_Unknown :
  ¬ parseable Samples.scenarioD
  ∧ length (filter parseable Cases.unbinned) = 1
  ∧ name <$> nodes (buildGraph "Depression" [Samples.scenarioD])
    = ["Unknown"; "Depression No"; "Treatment Yes"]
  ∧ endpoints <$> links (buildGraph "Depression" [Samples.scenarioD])
    = [("Unknown", "Depression No"); ("Depression No", "Treatment Yes")]
  ∧ sumValues (linksFrom isCGPA (links (buildGraph "Depression" Cases.unbinned)))
    = of_nat 0
  ∧ sumValues (linksFrom (λ nm, isCGPA nm || isUnknown nm)
                 (links (buildGraph "Depression" Cases.unbinned)))
    = of_nat 2.
Proof.
  split; [by intros H; apply H|]. split; [by vm_compute|].
  split; [by vm_compute|]. split; [by vm_compute|].
  split; by vm_compute.
Qed.

(** C1 (amended): for every record collection and every active condition
    whose name does not begin with "Treatment", each record contributes
    one bin-to-condition edge and one condition-to-treatment edge, whether
    or not its CGPA parses.  The weights out of the five labelled CGPA-bin
    nodes sum to the number of records whose parsed CGPA lies in one of
    the five ranges (all of which parse); the weights out of the "Unknown"
    node sum to the number of the other records, those whose CGPA does not
    parse or lies in no range; and the weights into the treatment nodes
    sum to the number of all records. *)
Theorem flow_weights (c : string) (data : list record) :
  startsWith c "Treatment" = false →
  sumValues (linksFrom isCGPA (links (buildGraph c data)))
  = of_nat (length (filter binned data))
  ∧ sumValues (linksFrom isUnknown (links (buildGraph c data)))
    = of_nat (length (filter (λ d, ¬ binned d) data))
  ∧ sumValues (linksInto isTreatment (links (buildGraph c data)))
    = of_nat (length data)
  ∧ length (filter binned data) ≤ length (filter parseable data)
  ∧ Forall (λ d, firstHop c d ∈ endpoints <$> links (buildGraph c data)
                 ∧ secondHop c d ∈ endpoints <$> links (buildGraph c data)) data.
Proof.
  intros Hc. split; [|split; [|split; [|split]]].
  - rewrite sumValues_from, count_sources
      by (intros d; apply Comparator.conditionName_not_CGPA).
    reflexivity.
  - rewrite sumValues_from, count_sources by apply conditionName_not_Unknown.
    f_equal. f_equal. apply list_filter_iff. intros d. apply unknown_iff_not_binned.
  - rewrite sumValues_into, count_targets; [done| |].
    + intros d. by apply conditionName_not_Treatment.
    + intros d. apply prefix_app.
  - clear. induction data as [|d data IH]; [done|].
    rewrite !GridFacts.length_filter_cons.
    pose proof (binned_parseable d). repeat case_decide; try lia; tauto.
  - apply Forall_forall. intros d Hd. rewrite !elem_of_endpoints. unfold hops.
    rewrite !list_elem_of_bind. split; exists d; set_solver.
Qed.

Lemma flow_weights_witness :
  sumValues (linksFrom isCGPA (links (buildGraph "Anxiety" Cases.mixed))) = of_nat 2
  ∧ sumValues (linksFrom isUnknown (links (buildGraph "Anxiety" Cases.mixed)))
    = of_nat 2
  ∧ sumValues (linksInto isTreatment (links (buildGraph "Anxiety" Cases.mixed)))
    = of_nat 4.
Proof.
  destruct (flow_weights "Anxiety" Cases.mixed) as (H1 & H2 & H3 & _).
  - reflexivity.
  - split; [exact H1|]. split; [exact H2|exact H3].
Defined.

End FlowGraph.

(* ===================================================================== *)
(** * Further properties of the components                                *)
(* ===================================================================== *)

Module OrderFacts.
Import Sankey Tiers Order.

Lemma indexOf_bounds (l : list string) (x : string) :
  (-1 ≤ indexOf l x < Z.of_nat (length l))%Z.
Proof.
  induction l as [|y l IH]; simpl; [lia|].
  destruct (String.eqb y x); [lia|].
  destruct (indexOf l x <? 0)%Z eqn:E; [lia|]. apply Z.ltb_ge in E. lia.
Qed.

(** Within a tier the comparator is the difference of the keys, and across
    tiers it is -1 or 1 as the keys are ordered. *)
Lemma nodeSort_sortKey (c : string) (a b : CustomNode) :
  ((nodeSort c a b < 0 ↔ sortKey c (name a) < sortKey c (name b))
   ∧ (nodeSort c a b = 0 ↔ sortKey c (name a) = sortKey c (name b)))%Z.
Proof.
  unfold nodeSort, sortKey.
  pose proof (indexOf_bounds cgpaBinLabels (name a)).
  pose proof (indexOf_bounds cgpaBinLabels (name b)).
  pose proof (indexOf_bounds [c +:+ " No"; c +:+ " Yes"] (name a)).
  pose proof (indexOf_bounds [c +:+ " No"; c +:+ " Yes"] (name b)).
  pose proof (indexOf_bounds ["Treatment No"; "Treatment Yes"] (name a)).
  pose proof (indexOf_bounds ["Treatment No"; "Treatment Yes"] (name b)).
  simpl length in *.
  destruct (isCGPA (name a)), (isCGPA (name b)),
    (isCondition c (name a)), (isCondition c (name b)),
    (isTreatment (name a)), (isTreatment (name b)); cbv [andb]; lia.
Qed.

End OrderFacts.

Module OrderLaws.
Import Sankey Tiers Order OrderFacts.

(** X1: the comparator is a consistent one for every active condition and
    all node names: swapping the arguments negates the result, and both
    "not after" and "before" are transitive, so that sorting a column with
    it has one outcome up to the order of nodes that compare equal. *)
Theorem nodeSort_is_consistent (c : string) :
  (∀ a b, nodeSort c a b = (- nodeSort c b a)%Z)
  ∧ (∀ a b d, (nodeSort c a b ≤ 0 → nodeSort c b d ≤ 0 → nodeSort c a d ≤ 0)%Z)
  ∧ (∀ a b d, (nodeSort c a b < 0 → nodeSort c b d < 0 → nodeSort c a d < 0)%Z)
  ∧ (∀ a b d, nodeSort c a b = 0%Z →
       ((nodeSort c a d < 0 ↔ nodeSort c b d < 0)
        ∧ (nodeSort c d a < 0 ↔ nodeSort c d b < 0))%Z).
Proof.
  split; [|split; [|split]].
  - intros a b. unfold nodeSort.
    destruct (isCGPA (name a)), (isCGPA (name b)); cbv [andb]; try lia;
    destruct (isCondition c (name a)), (isCondition c (name b)); cbv [andb]; try lia;
    destruct (isTreatment (name a)), (isTreatment (name b)); cbv [andb]; lia.
  - intros a b d.
    destruct (nodeSort_sortKey c a b) as [? ?], (nodeSort_sortKey c b d) as [? ?],
      (nodeSort_sortKey c a d) as [? ?]. lia.
  - intros a b d.
    destruct (nodeSort_sortKey c a b) as [? ?], (nodeSort_sortKey c b d) as [? ?],
      (nodeSort_sortKey c a d) as [? ?]. lia.
  - intros a b d.
    destruct (nodeSort_sortKey c a b) as [? ?], (nodeSort_sortKey c b d) as [? ?],
      (nodeSort_sortKey c a d) as [? ?], (nodeSort_sortKey c d a) as [? ?],
      (nodeSort_sortKey c d b) as [? ?]. lia.
Qed.

Lemma nodeSort_is_consistent_witness :
  (nodeSort "Depression" (newNode "Unknown") (newNode "3.5-4.0") = 1
   ∧ nodeSort "Depression" (newNode "2.0-2.49") (newNode "Treatment No") < 0)%Z.
Proof.
  destruct (nodeSort_is_consistent "Depression") as (Hanti & _ & Htrans & _).
  split.
  - rewrite (Hanti (newNode "Unknown") (newNode "3.5-4.0")). reflexivity.
  - apply (Htrans (newNode "2.0-2.49") (newNode "Depression Yes")
             (newNode "Treatment No")); reflexivity.
Defined.

End OrderLaws.

Module FlowLaws.
Import Sankey Flow Hops Shapes Keys Weights Order.

Lemma count_hops (Q : string * string → Prop) `{!∀ p, Decision (Q p)}
    (c : string) (data : list record) :
  length (filter Q (hops c data))
  = length (filter (λ d, Q (firstHop c d)) data)
    + length (filter (λ d, Q (secondHop c d)) data).
Proof.
  induction data as [|d data IH]; [done|].
  rewrite hops_cons, !GridFacts.length_filter_cons, IH. lia.
Qed.

Lemma filter_none {A} (P : A → Prop) `{!∀ x, Decision (P x)} (l : list A) :
  (∀ x, ¬ P x) → filter P l = [].
Proof.
  intros Hno. induction l as [|x l IH]; [done|].
  by rewrite filter_cons_False.
Qed.

Lemma condition_is_no_bin (c y : string) :
  c +:+ " " +:+ y ∉ cgpaBinLabels ++ ["Unknown"].
Proof.
  intros H. apply elem_of_app in H as [H | H].
  - pose proof (Comparator.conditionName_not_CGPA c y) as Hn.
    unfold isCGPA, includes in Hn. apply not_true_iff_false in Hn. apply Hn.
    apply existsb_exists. eexists. split; [by apply list_elem_of_In|].
    apply String.eqb_refl.
  - apply list_elem_of_singleton in H. peel c.
Qed.

Lemma condition_is_no_treatment (c y t : string) :
  c ≠ "Treatment" → y ∈ ["Yes"; "No"] → t ∈ ["Yes"; "No"] →
  c +:+ " " +:+ y ≠ "Treatment " +:+ t.
Proof.
  intros Hc Hy Ht E. apply Hc.
  apply (Comparator.isCondition_Treatment c t).
  - cases_in Ht; auto.
  - rewrite <- E. apply Comparator.isCondition_own.
Qed.

Lemma treatmentName_cases (d : record) :
  ∃ t, t ∈ ["Yes"; "No"] ∧ treatmentName d = "Treatment " +:+ t.
Proof. eexists. split; [apply yesNo_cases|done]. Qed.

Lemma conditionName_cases (c : string) (d : record) :
  ∃ y, y ∈ ["Yes"; "No"] ∧ conditionName c d = c +:+ " " +:+ y.
Proof. eexists. split; [apply yesNo_cases|done]. Qed.

(** X2: flow is conserved at the two nodes of the condition.  For every
    active condition other than "Treatment", the weights into a condition
    node and the weights out of it both sum to the number of records that
    derive the node's name. *)
Theorem condition_flow_is_conserved (c : string) (data : list record) (y : string) :
  c ≠ "Treatment" → y ∈ ["Yes"; "No"] →
  sumValues (linksInto (String.eqb (c +:+ " " +:+ y)) (links (buildGraph c data)))
  = of_nat (length (filter (λ d, conditionName c d = c +:+ " " +:+ y) data))
  ∧ sumValues (linksFrom (String.eqb (c +:+ " " +:+ y)) (links (buildGraph c data)))
    = of_nat (length (filter (λ d, conditionName c d = c +:+ " " +:+ y) data)).
Proof.
  intros Hc Hy. rewrite sumValues_into, sumValues_from.
  rewrite !(count_hops _ c data). split; f_equal.
  - rewrite (filter_none (λ d, String.eqb _ (secondHop c d).2 = true)).
    + rewrite Nat.add_0_r. f_equal. apply list_filter_iff. intros d. simpl.
      rewrite String.eqb_eq. split; by intros ->.
    + intros d E. simpl in E. apply String.eqb_eq in E.
      destruct (treatmentName_cases d) as (t & Ht & Et). rewrite Et in E.
      by apply (condition_is_no_treatment c y t).
  - rewrite (filter_none (λ d, String.eqb _ (firstHop c d).1 = true)).
    + simpl. f_equal. apply list_filter_iff. intros d.
      rewrite String.eqb_eq. split; by intros ->.
    + intros d E. simpl in E. apply String.eqb_eq in E.
      apply (condition_is_no_bin c y). rewrite E.
      apply CgpaBins.getCgpabin_cases.
Qed.

Lemma condition_flow_is_conserved_witness :
  sumValues (linksInto (String.eqb "Anxiety Yes")
               (links (buildGraph "Anxiety" Cases.mixed))) = of_nat 2
  ∧ sumValues (linksFrom (String.eqb "Anxiety Yes")
                 (links (buildGraph "Anxiety" Cases.mixed))) = of_nat 2.
Proof.
  apply (condition_flow_is_conserved "Anxiety" Cases.mixed "Yes").
  - discriminate.
  - left.
Defined.

Lemma rank_bin (c nm : string) : nm ∈ cgpaBinLabels ++ ["Unknown"] → rank c nm = 0.
Proof. intros H. unfold rank. by rewrite bool_decide_eq_true_2. Qed.

Lemma rank_condition (c y : string) :
  y ∈ ["Yes"; "No"] → rank c (c +:+ " " +:+ y) = 1.
Proof.
  intros Hy. unfold rank.
  rewrite bool_decide_eq_false_2 by apply condition_is_no_bin.
  rewrite bool_decide_eq_true_2; [done|]. cases_in Hy; set_solver.
Qed.

Lemma rank_treatment (c t : string) :
  c ≠ "Treatment" → t ∈ ["Yes"; "No"] → rank c ("Treatment " +:+ t) = 2.
Proof.
  intros Hc Ht. unfold rank.
  rewrite bool_decide_eq_false_2.
  2:{ cases_in Ht; by apply (bool_decide_unpack _). }
  rewrite bool_decide_eq_false_2; [done|].
  intros H. apply elem_of_cons in H as [H | H].
  - symmetry in H. revert H. apply condition_is_no_treatment; [done|set_solver|done].
  - apply list_elem_of_singleton in H. symmetry in H. revert H.
    apply condition_is_no_treatment; [done|set_solver|done].
Qed.

(** X3: the graph is layered.  For every active condition other than
    "Treatment", each link leads from a node of one column to a node of
    the next: from a CGPA bin (or "Unknown") to a condition node, or from
    a condition node to a treatment node.  No link is a loop and the links
    form no cycle, which the layout would refuse. *)
Theorem links_go_one_column_right (c : string) (data : list record) :
  c ≠ "Treatment" →
  Forall (λ l, rank c (name (target l)) = S (rank c (name (source l)))
               ∧ name (source l) ≠ name (target l))
    (links (buildGraph c data)).
Proof.
  intros Hc. rewrite links_buildGraph. apply Forall_fmap, Forall_forall.
  intros p Hp. apply (proj1 (Tally.elem_of_distinct _ _)) in Hp.
  apply hops_shape in Hp. cbn [linkOf source target name newNode].
  assert (rank c p.2 = S (rank c p.1)) as Hr.
  { destruct Hp as [bin y Hb Hy | y t Hy Ht]; cbn [fst snd].
    - by rewrite (rank_bin c bin), rank_condition.
    - by rewrite rank_condition, rank_treatment. }
  split; [done|]. intros E. cbn [linkOf source target name newNode] in E.
  rewrite E in Hr. lia.
Qed.

Lemma links_go_one_column_right_witness :
  Forall (λ l, rank "Depression" (name (target l))
               = S (rank "Depression" (name (source l)))
               ∧ name (source l) ≠ name (target l))
    (links (buildGraph "Depression" Cases.mixed)).
Proof. apply links_go_one_column_right. discriminate. Defined.

(** X4: with the condition "Treatment", which the picker does not offer,
    the condition node and the treatment node share their names.  A record
    whose cell "Do you have Treatment?" is not "Yes" (the survey has no
    such column) and that sought no treatment derives the node
    "Treatment No" twice, and the graph has a link from that node to
    itself. *)
Theorem treatment_condition_loops (d : record) (data : list record) :
  field d "Do you have Treatment?" ≠ Str "Yes" →
  field d "Did you seek any specialist for a treatment?" ≠ Str "Yes" →
  d ∈ data →
  ∃ l, l ∈ links (buildGraph "Treatment" data)
       ∧ name (source l) = "Treatment No" ∧ name (target l) = "Treatment No".
Proof.
  intros Hc Ht Hd.
  assert (("Treatment No", "Treatment No") ∈ endpoints <$> links (buildGraph "Treatment" data))
    as Hin.
  { assert (secondHop "Treatment" d = ("Treatment No", "Treatment No")) as <-.
    { unfold secondHop, conditionName, treatmentName, yesNo.
      destruct (strict_eq (field d _) (Str "Yes")) eqn:E1.
      { by apply Regions.strict_eq_Str in E1. }
      destruct (strict_eq (field d "Did you seek any specialist for a treatment?")
                  (Str "Yes")) eqn:E2.
      { by apply Regions.strict_eq_Str in E2. }
      done. }
    apply elem_of_endpoints. unfold hops. apply list_elem_of_bind.
    exists d. split; [|done]. right. left. }
  apply list_elem_of_fmap in Hin as (l & [= H1 H2] & Hl). eauto.
Qed.

Lemma treatment_condition_loops_witness :
  ∃ l, l ∈ links (buildGraph "Treatment" [Samples.healthy])
       ∧ name (source l) = "Treatment No" ∧ name (target l) = "Treatment No".
Proof.
  apply (treatment_condition_loops Samples.healthy); [done|done|left].
Defined.

End FlowLaws.

Module Registry.
Import Sankey Flow Hops Shapes Keys Weights Order.

Lemma firstSeen_snoc (l : list string) (x : string) :
  firstSeen (l ++ [x]) = if decide (x ∈ l) then firstSeen l else firstSeen l ++ [x].
Proof.
  unfold firstSeen. rewrite reverse_snoc. simpl.
  destruct (decide_rel elem_of x (reverse l)) as [Hin|Hin];
    rewrite elem_of_reverse in Hin.
  - by rewrite decide_True.
  - by rewrite decide_False, reverse_cons.
Qed.

Lemma elem_of_firstSeen (l : list string) (x : string) : x ∈ firstSeen l ↔ x ∈ l.
Proof.
  unfold firstSeen. by rewrite elem_of_reverse, elem_of_remove_dups, elem_of_reverse.
Qed.

(** Registering the names of [l] one after the other, from a registry
    that holds [seen] in first-seen order. *)
Lemma firstSeen_app (seen l : list string) :
  firstSeen (seen ++ l)
  = fold_left (λ ns x, if decide (x ∈ ns) then ns else ns ++ [x]) l (firstSeen seen).
Proof.
  revert seen. induction l as [|x l IH]; intros seen.
  - by rewrite app_nil_r.
  - rewrite cons_middle, (assoc_L (++) seen [x] l), IH, firstSeen_snoc. simpl.
    destruct (decide (x ∈ seen)) as [Hin|Hin].
    + rewrite decide_True; [done|]. by apply elem_of_firstSeen.
    + rewrite decide_False; [done|]. by rewrite elem_of_firstSeen.
Qed.

Lemma addNode_names (nm : string) (g : Graph) :
  registry g →
  registry (addNode nm g).2
  ∧ name <$> nodes (addNode nm g).2
    = if decide (nm ∈ name <$> nodes g) then name <$> nodes g
      else (name <$> nodes g) ++ [nm].
Proof.
  intros Hg. split.
  - destruct (Builder.addNode_registry nm g Hg) as (g' & E & Hg' & _).
    by rewrite E.
  - destruct Hg as (_ & _ & Hmap). unfold addNode. rewrite Hmap.
    case_decide; [done|]. simpl. by rewrite fmap_app.
Qed.

Lemma processRecord_names (c : string) (g : Graph) (d : record) :
  registry g →
  name <$> nodes (processRecord c g d)
  = fold_left (λ ns x, if decide (x ∈ ns) then ns else ns ++ [x])
      (namesOf c d) (name <$> nodes g).
Proof.
  intros Hg. unfold processRecord, namesOf.
  destruct (addNode_names (cgpaRange d) g Hg) as (Hg1 & E1).
  destruct (addNode (cgpaRange d) g) as [n1 g1]. simpl in Hg1, E1.
  destruct (addNode_names (conditionName c d) g1 Hg1) as (Hg2 & E2).
  destruct (addNode (conditionName c d) g1) as [n2 g2]. simpl in Hg2, E2.
  destruct (addNode_names (treatmentName d) g2 Hg2) as (Hg3 & E3).
  destruct (addNode (treatmentName d) g2) as [n3 g3]. simpl in Hg3, E3.
  simpl. by rewrite E3, E2, E1.
Qed.

Lemma fold_names (c : string) (data : list record) (g : Graph) :
  registry g →
  name <$> nodes (fold_left (processRecord c) data g)
  = fold_left (λ ns x, if decide (x ∈ ns) then ns else ns ++ [x])
      (nameList c data) (name <$> nodes g).
Proof.
  revert g. induction data as [|d data IH]; intros g Hg; [done|].
  destruct (Builder.processRecord_registry c g d Hg) as (Hg' & _).
  cbn [fold_left]. rewrite (IH _ Hg'), (processRecord_names c g d Hg).
  unfold nameList. by rewrite bind_cons, fold_left_app.
Qed.

Lemma nodes_are_fresh (c : string) (data : list record) :
  nodes (buildGraph c data) = newNode <$> (name <$> nodes (buildGraph c data)).
Proof.
  destruct (Builder.fold_processRecord c data emptyGraph Builder.emptyGraph_registry)
    as ((_ & Hnew & _) & _ & _).
  fold (buildGraph c data) in Hnew. revert Hnew.
  generalize (nodes (buildGraph c data)). intros l Hl.
  induction Hl as [|n l Hn _ IH]; [done|]. rewrite !fmap_cons.
  by rewrite <- Hn, <- IH.
Qed.

Lemma nodes_first_seen (c : string) (data : list record) :
  nodes (buildGraph c data) = newNode <$> firstSeen (nameList c data).
Proof.
  rewrite nodes_are_fresh. f_equal. unfold buildGraph.
  rewrite (fold_names c data emptyGraph Builder.emptyGraph_registry).
  exact (eq_sym (firstSeen_app [] (nameList c data))).
Qed.

Lemma endpoints_first_seen (c : string) (data : list record) :
  endpoints <$> links (buildGraph c data) = distinct (hops c data).
Proof.
  rewrite links_buildGraph, <- list_fmap_compose.
  rewrite (Tally.fmap_ext_in _ id) by (by intros []). apply list_fmap_id.
Qed.

(** X5: the nodes and the links are registered in first-seen order.  The
    node array holds the distinct names the records derive (bin,
    condition, treatment, record after record) in the order they first
    occur, each as an untouched node object; the link array holds the
    distinct (source, target) pairs in the order they first occur. *)
Theorem graph_is_in_first_seen_order (c : string) (data : list record) :
  nodes (buildGraph c data) = newNode <$> firstSeen (nameList c data)
  ∧ endpoints <$> links (buildGraph c data) = distinct (hops c data).
Proof. split; [apply nodes_first_seen|apply endpoints_first_seen]. Qed.

(** X6: the nodes are exactly the end points of the links: a name is
    registered as a node if and only if some link starts or ends there, so
    that no link refers to a missing node and no node is isolated. *)
Theorem nodes_are_link_endpoints (c : string) (data : list record) (x : string) :
  x ∈ name <$> nodes (buildGraph c data)
  ↔ ∃ l, l ∈ links (buildGraph c data)
         ∧ (x = name (source l) ∨ x = name (target l)).
Proof.
  destruct (Builder.fold_processRecord c data emptyGraph Builder.emptyGraph_registry)
    as (_ & _ & Hnames).
  fold (buildGraph c data) in Hnames. rewrite Hnames. simpl. rewrite elem_of_nil.
  split.
  - intros [(d & Hd & Hx) | []].
    assert (firstHop c d ∈ endpoints <$> links (buildGraph c data)) as H1.
    { apply elem_of_endpoints. unfold hops. apply list_elem_of_bind.
      exists d. split; [left|done]. }
    assert (secondHop c d ∈ endpoints <$> links (buildGraph c data)) as H2.
    { apply elem_of_endpoints. unfold hops. apply list_elem_of_bind.
      exists d. split; [right; left|done]. }
    apply list_elem_of_fmap in H1 as (l1 & [= E1 E1'] & Hl1).
    apply list_elem_of_fmap in H2 as (l2 & [= E2 E2'] & Hl2).
    unfold namesOf in Hx. apply elem_of_cons in Hx as [-> | Hx]; [by eauto|].
    apply elem_of_cons in Hx as [-> | Hx]; [by eauto|].
    apply list_elem_of_singleton in Hx as ->. eauto.
  - intros (l & Hl & Hx). left.
    assert (endpoints l ∈ hops c data) as Hp.
    { apply elem_of_endpoints. by apply list_elem_of_fmap_2. }
    unfold hops in Hp. apply list_elem_of_bind in Hp as (d & Hp & Hd).
    exists d. split; [done|]. unfold namesOf.
    apply elem_of_cons in Hp as [Hp | Hp];
      [|apply list_elem_of_singleton in Hp];
      injection Hp as E1 E2; destruct Hx as [-> | ->]; rewrite ?E1, ?E2; set_solver.
Qed.

Lemma occurrences_perm (p : string * string) (ps ps' : list (string * string)) :
  ps ≡ₚ ps' → occurrences p ps = occurrences p ps'.
Proof. intros H. unfold occurrences. by rewrite H. Qed.

(** X7: the graph does not depend on the order of the records, up to the
    order of its arrays: a permutation of the collection gives the same
    nodes and the same links with the same weights, in a possibly
    different order. *)
Theorem graph_ignores_order (c : string) (data data' : list record) :
  data ≡ₚ data' →
  nodes (buildGraph c data) ≡ₚ nodes (buildGraph c data')
  ∧ links (buildGraph c data) ≡ₚ links (buildGraph c data').
Proof.
  intros Hperm.
  assert (hops c data ≡ₚ hops c data') as Hhops by (unfold hops; by rewrite Hperm).
  assert (nameList c data ≡ₚ nameList c data') as Hnames
    by (unfold nameList; by rewrite Hperm).
  split.
  - rewrite !nodes_first_seen.
    apply fmap_Permutation, NoDup_Permutation.
    + unfold firstSeen. rewrite reverse_Permutation. apply NoDup_remove_dups.
    + unfold firstSeen. rewrite reverse_Permutation. apply NoDup_remove_dups.
    + intros x. by rewrite !elem_of_firstSeen, Hnames.
  - rewrite !links_buildGraph.
    rewrite (Tally.fmap_ext_in (linkOf (hops c data)) (linkOf (hops c data'))).
    + apply fmap_Permutation, NoDup_Permutation; try apply Tally.NoDup_distinct.
      intros p. by rewrite !Tally.elem_of_distinct, Hhops.
    + intros p _. unfold linkOf. by rewrite (occurrences_perm p _ _ Hhops).
Qed.

Lemma graph_ignores_order_witness :
  links (buildGraph "Anxiety" [Samples.scenarioD; Samples.scenarioA])
  ≡ₚ links (buildGraph "Anxiety" [Samples.scenarioA; Samples.scenarioD]).
Proof. apply graph_ignores_order. apply perm_swap. Defined.

End Registry.

Module ViewFacts.
Import Sankey SankeyView HeatMap HeatMapView VennView Venn Classes Layout Page.

(** X8: the stroke of a link is never thinner than 1 and never NaN,
    whatever width the layout leaves on the link: an absent width, NaN,
    zero and every width below 1 give 1, and a width of at least 1 is
    kept. *)
Theorem strokeWidth_floor (width : option number) :
  le (of_nat 1) (strokeWidth width) = true
  ∧ (∀ x, width = Some x → le (of_nat 1) x = true → strokeWidth width = x)
  ∧ (width = None ∨ width = Some NaN
     ∨ (∃ x, width = Some x ∧ le (of_nat 1) x = false) →
     strokeWidth width = of_nat 1).
Proof.
  split; [|split].
  - destruct width as [[|s|q]|]; try done; [by destruct s|].
    unfold strokeWidth, orZero, falsy, max.
    destruct (Qeq_bool q 0); [done|].
    destruct (le (of_nat 1) (Finite q)) eqn:E; [exact E|done].
  - intros x -> Hx. destruct x as [|s|q]; try done; [by destruct s|].
    unfold strokeWidth, orZero, falsy, max.
    destruct (Qeq_bool q 0) eqn:E0; [|by rewrite Hx].
    exfalso. apply Qeq_bool_iff in E0. apply le_Finite_true in Hx.
    rewrite E0 in Hx. unfold of_nat, Qle in Hx. simpl in Hx. lia.
  - intros [-> | [-> | (x & -> & Hx)]]; try done.
    destruct x as [|s|q]; try done; [by destruct s|].
    unfold strokeWidth, orZero, falsy, max.
    destruct (Qeq_bool q 0); [done|]. by rewrite Hx.
Qed.

Lemma strokeWidth_floor_witness :
  strokeWidth (Some (Finite (5 # 2))) = Finite (5 # 2)
  ∧ strokeWidth (Some (Finite (1 # 4))) = of_nat 1.
Proof.
  split.
  - apply (strokeWidth_floor (Some (Finite (5 # 2)))); reflexivity.
  - apply (strokeWidth_floor (Some (Finite (1 # 4)))).
    right. right. by eexists.
Defined.

Lemma fold_max_ge (l : list nat) (x : nat) :
  x ≤ fold_left Nat.max l x ∧ Forall (λ y, y ≤ fold_left Nat.max l x) l.
Proof.
  revert x. induction l as [|y l IH]; intros x; simpl; [by split|].
  destruct (IH (Nat.max x y)) as [H1 H2]. split; [lia|].
  apply Forall_cons. split; [lia|done].
Qed.

Lemma fold_max_in (l : list nat) (x : nat) : fold_left Nat.max l x ∈ x :: l.
Proof.
  revert x. induction l as [|y l IH]; intros x; simpl; [left|].
  specialize (IH (Nat.max x y)). apply elem_of_cons in IH as [IH | IH].
  - rewrite IH. destruct (Nat.max_spec x y) as [[_ ->] | [_ ->]];
      [right; left|left].
  - by do 2 right.
Qed.

Lemma maxCount_spec (cells : list Cell) :
  cells ≠ [] →
  Forall (λ cell, count cell ≤ maxCount cells) cells
  ∧ ∃ cell, cell ∈ cells ∧ count cell = maxCount cells.
Proof.
  destruct cells as [|cell cells]; [done|]. intros _.
  unfold maxCount. rewrite fmap_cons. simpl.
  destruct (fold_max_ge (count <$> cells) (count cell)) as [H1 H2].
  split.
  - apply Forall_cons. split; [done|]. by apply Forall_fmap in H2.
  - pose proof (fold_max_in (count <$> cells) (count cell)) as Hin.
    rewrite <- fmap_cons in Hin.
    apply list_elem_of_fmap in Hin as (c0 & E & Hc0). eauto.
Qed.

Lemma count_le_total (cells : list Cell) (cell : Cell) :
  cell ∈ cells → count cell ≤ totalCount cells.
Proof.
  unfold totalCount. induction 1 as [|? ? ? _ IH]; simpl; lia.
Qed.

Lemma total_le_data (selectedRegion : option string) (cleanData : list record)
    (cells : list Cell) :
  frequencyData selectedRegion cleanData = Some cells →
  totalCount cells ≤ length cleanData.
Proof.
  unfold frequencyData.
  destruct (filteredData selectedRegion cleanData) as [filtered|] eqn:E; [|done].
  intros [= <-]. rewrite GridFacts.totalCount_onGrid.
  etrans; [apply length_filter|].
  unfold filteredData in E. destruct selectedRegion as [code|]; [|by simplify_eq].
  destruct (truthy (Some code)); [|by simplify_eq].
  by eapply GridFacts.filterE_length.
Qed.

(** X9: the scale of the grid is never left.  For the cells of every
    grid, the largest count is the count of one of the cells, bounds the
    count of each, and is at most the number of records; a cell with no
    record is flat grey, and a cell with records is coloured at a point
    of the scale in (0, 1], the cells of the largest count at 1.  The
    whole grid is grey exactly when the largest count is 0. *)
Theorem grid_colours_stay_in_scale (selectedRegion : option string)
    (cleanData : list record) (cells : list Cell) :
  frequencyData selectedRegion cleanData = Some cells →
  Forall (λ cell, count cell ≤ maxCount cells) cells
  ∧ (∃ cell, cell ∈ cells ∧ count cell = maxCount cells)
  ∧ maxCount cells ≤ length cleanData
  ∧ Forall (λ cell, match cellFill (maxCount cells) cell with
                    | Scaled t => (0 < count cell) ∧ (0 < t)%Q ∧ (t <= 1)%Q
                                  ∧ (count cell = maxCount cells → (t == 1)%Q)
                    | Flat colour => count cell = 0 ∧ colour = "#e0e0e0"
                    end) cells
  ∧ (maxCount cells = 0 ↔ Forall (λ cell, count cell = 0) cells).
Proof.
  intros Hcells.
  assert (cells ≠ []) as Hne.
  { unfold frequencyData in Hcells.
    destruct (filteredData _ _) as [filtered|]; [|done].
    injection Hcells as <-. done. }
  destruct (maxCount_spec cells Hne) as (Hle & cell0 & Hin0 & Hmax).
  split; [done|]. split; [by eauto|]. split.
  { rewrite <- Hmax. etrans; [by apply count_le_total|].
    by eapply total_le_data. }
  split.
  - apply Forall_forall. intros cell Hcell. unfold cellFill, colorScale.
    eapply Forall_forall in Hle; [|exact Hcell].
    destruct (0 <? count cell) eqn:E.
    + apply Nat.ltb_lt in E. split; [done|].
      assert ((maxCount cells =? 0) = false) as -> by (apply Nat.eqb_neq; lia).
      unfold Qlt, Qle, Qeq. simpl. repeat split; try lia.
    + apply Nat.ltb_ge in E. split; [lia|done].
  - split.
    + intros H0. apply Forall_forall. intros cell Hcell.
      eapply Forall_forall in Hle; [|exact Hcell]. lia.
    + intros Hall. eapply Forall_forall in Hall; [|exact Hin0]. lia.
Qed.

Lemma grid_colours_stay_in_scale_witness :
  ∃ cell, cell ∈ frequencyCells [Samples.scenarioA_file; Samples.healthy]
          ∧ count cell
            = maxCount (frequencyCells [Samples.scenarioA_file; Samples.healthy]).
Proof.
  destruct (grid_colours_stay_in_scale None [Samples.scenarioA_file; Samples.healthy]
              (frequencyCells [Samples.scenarioA_file; Samples.healthy]) eq_refl)
    as (_ & H & _).
  exact H.
Defined.

End ViewFacts.

Module Titles.
Import HeatMap HeatMapView VennView Venn Classes Layout Page.

Lemma selectable_cases (r : option string) :
  selectable r →
  r ∈ [None; Some "100"; Some "010"; Some "001"; Some "110"; Some "101";
       Some "011"; Some "111"].
Proof.
  destruct r as [code|]; simpl; [|set_solver]. unfold regionCodes. intros H.
  Keys.cases_in H; set_solver.
Qed.

Lemma mapping_other (code : string) : code ∉ regionCodes → mapping !! code = None.
Proof.
  unfold regionCodes, mapping. rewrite !not_elem_of_cons.
  intros (?&?&?&?&?&?&?&_). by rewrite !lookup_insert_ne, lookup_empty.
Qed.

(** X10: the title of the grid identifies the selection.  Over the
    selections the page can reach (none, or one of the seven codes) the
    title is a string and different selections have different titles; any
    other non-empty code gets the fallback title, except the names the
    mapping object inherits, for which the lookup returns the inherited
    member instead of a string; and only the empty selection gets the
    title of all students. *)
Theorem title_identifies_selection :
  (∀ r1 r2, selectable r1 → selectable r2 →
     getTitleForRegion r1 = getTitleForRegion r2 → r1 = r2)
  ∧ (∀ r, selectable r → ∃ s, getTitleForRegion r = Text s)
  ∧ (∀ code, code ≠ "" →
       getTitleForRegion (Some code) ≠ Text "All students academic performance")
  ∧ (∀ code, code ≠ "" → code ∉ regionCodes → code ∉ objectPrototypeKeys →
       getTitleForRegion (Some code) = Text "Selected students academic performance")
  ∧ (∀ code, code ∈ objectPrototypeKeys → getTitleForRegion (Some code) = Inherited code).
Proof.
  split; [|split; [|split; [|split]]].
  - intros r1 r2 H1%selectable_cases H2%selectable_cases.
    Keys.cases_in H1; Keys.cases_in H2; by vm_compute.
  - intros r H%selectable_cases. Keys.cases_in H; by eexists.
  - intros code Hne. unfold getTitleForRegion, truthy.
    apply String.eqb_neq in Hne. rewrite Hne. simpl.
    destruct (decide (code ∈ regionCodes)) as [Hin|Hout].
    + unfold regionCodes in Hin. Keys.cases_in Hin; by vm_compute.
    + rewrite (mapping_other code Hout). by case_bool_decide.
  - intros code Hne Hout Hproto. unfold getTitleForRegion, truthy.
    apply String.eqb_neq in Hne. rewrite Hne. simpl.
    rewrite (mapping_other code Hout). by rewrite bool_decide_eq_false_2.
  - intros code Hin. unfold objectPrototypeKeys in Hin.
    Keys.cases_in Hin; by vm_compute.
Qed.

Lemma title_identifies_selection_witness :
  getTitleForRegion (Some "region 9") = Text "Selected students academic performance".
Proof.
  apply title_identifies_selection; [done| |]; by apply (bool_decide_unpack _).
Defined.

(** X11: the circles a selection highlights are the conditions of the
    records it selects.  For a record of key k, with k selected, the
    circle of index i is drawn at opacity 0.7 exactly when the record has
    the i-th condition, and at 0.2 otherwise; with no selection every
    circle is drawn at 0.5. *)
Theorem highlight_matches_key (d : record) (k c : string) (i : nat) :
  regionKey d = Some k → conditions !! i = Some c →
  (fillOpacity (Some k) i = Finite (7 # 10)
   ↔ yesDigit (field d (column c)) = Some "1")
  ∧ (fillOpacity (Some k) i = Finite (2 # 10)
     ↔ yesDigit (field d (column c)) = Some "0")
  ∧ fillOpacity None i = Finite (5 # 10).
Proof.
  unfold regionKey. intros Hk Hc.
  destruct (yesDigit (field d "Do you have Depression?")) as [x|] eqn:Ex; [|done].
  destruct (yesDigit (field d "Do you have Anxiety?")) as [y|] eqn:Ey; [|done].
  destruct (yesDigit (field d "Do you have Panic attack?")) as [z|] eqn:Ez; [|done].
  simpl in Hk. injection Hk as <-.
  apply Regions.yesDigit_digit in Ex as Hx, Ey as Hy, Ez as Hz.
  destruct i as [|[|[|i]]]; try done; injection Hc as <-;
    cbv [column String.append]; rewrite ?Ex, ?Ey, ?Ez;
    destruct Hx as [-> | ->], Hy as [-> | ->], Hz as [-> | ->];
    vm_compute; repeat split; intros; congruence.
Qed.

Lemma highlight_matches_key_witness :
  fillOpacity (Some "101") 2 = Finite (7 # 10).
Proof.
  apply (highlight_matches_key Samples.scenarioA "101" "Panic attack" 2);
    reflexivity.
Defined.

(** X12: the tooltip of a region names the circles the region highlights:
    for each of the seven codes, the label is the names of the highlighted
    circles joined by " & ".  And the count of a region is drawn yellow
    for the selected code only, so at most one of the seven is. *)
Theorem labels_name_the_highlighted (selectedRegion : option string) :
  (∀ code, code ∈ regionCodes →
     regionLabels !! code = Some (join (highlighted (Some code))))
  ∧ filter (λ code, textFill selectedRegion code = "yellow") regionCodes
    = match selectedRegion with
      | Some s => if bool_decide (s ∈ regionCodes) then [s] else []
      | None => []
      end.
Proof.
  split.
  - intros code Hin. unfold regionCodes in Hin. Keys.cases_in Hin; by vm_compute.
  - destruct selectedRegion as [s|]; [|by vm_compute].
    case_bool_decide as Hin.
    + unfold regionCodes in Hin. Keys.cases_in Hin; by vm_compute.
    + unfold regionCodes in *. rewrite !not_elem_of_cons in Hin.
      destruct Hin as (?&?&?&?&?&?&?&_). unfold textFill.
      rewrite !filter_cons, filter_nil.
      repeat (rewrite decide_False;
              [|destruct (String.eqb s _) eqn:E;
                [by apply String.eqb_eq in E|done]]).
      done.
Qed.

End Titles.

Module PageFacts.
Import HeatMap Layout Page.

Lemma run_projections (es : list Event) (s s' : State) :
  (selectedRegion s = selectedRegion s' →
   selectedRegion (run s es) = selectedRegion (run s' (filter (λ e, isRegionEvent e = true) es)))
  ∧ (selectedCondition s = selectedCondition s' →
     selectedCondition (run s es)
     = selectedCondition (run s' (filter (λ e, isConditionEvent e = true) es))).
Proof.
  revert s s'. induction es as [|e es IH]; intros s s'; [done|].
  rewrite !filter_cons. split; intros E.
  - destruct e; simpl; try (apply IH; simpl; done).
  - destruct e; simpl; try (apply IH; simpl; done).
Qed.

(** X13: the two selections do not interfere.  After any run of events the
    selected region is what the reset and region clicks alone would have
    left, and the selected condition what the condition changes alone
    would have left; so the grid never changes on a condition change and
    the flow graph never changes on a region click or a reset. *)
Theorem selections_do_not_interfere (s : State) (es : list Event)
    (data : list record) :
  selectedRegion (run s es)
  = selectedRegion (run s (filter (λ e, isRegionEvent e = true) es))
  ∧ selectedCondition (run s es)
    = selectedCondition (run s (filter (λ e, isConditionEvent e = true) es))
  ∧ gridShown (run s es) data
    = gridShown (run s (filter (λ e, isRegionEvent e = true) es)) data
  ∧ graphShown (run s es) data
    = graphShown (run s (filter (λ e, isConditionEvent e = true) es)) data.
Proof.
  destruct (run_projections es s s) as [H1 H2].
  unfold gridShown, graphShown. rewrite <- H1, <- H2 by done. done.
Qed.

Lemma run_app (s : State) (es es' : list Event) :
  run s (es ++ es') = run (run s es) es'.
Proof. apply fold_left_app. Qed.

Lemma region_kept (cs : list Event) (s : State) :
  Forall (λ e, isConditionEvent e = true) cs →
  selectedRegion (run s cs) = selectedRegion s.
Proof.
  revert s. induction cs as [|e cs IH]; intros s Hcs; [done|].
  inversion_clear Hcs as [|? ? He Hrest]. simpl. rewrite IH by done.
  by destruct e.
Qed.

(** X14: a reset shows the whole collection again.  Whatever was selected
    before, after a reset followed by condition changes only, no region is
    selected, the grid is the unfiltered one, and its total counts every
    record whose cells are on the grid. *)
Theorem reset_restores_the_grid (s : State) (es cs : list Event)
    (data : list record) :
  Forall (λ e, isConditionEvent e = true) cs →
  selectedRegion (run s (es ++ Reset :: cs)) = None
  ∧ gridShown (run s (es ++ Reset :: cs)) data = Some (frequencyCells data)
  ∧ totalCount <$> gridShown (run s (es ++ Reset :: cs)) data
    = Some (length (filter Grid.onGrid data)).
Proof.
  intros Hcs.
  assert (selectedRegion (run s (es ++ Reset :: cs)) = None) as Hnone.
  { rewrite run_app. simpl. by rewrite region_kept. }
  unfold gridShown. rewrite Hnone. split; [done|]. split; [done|].
  by rewrite Totals.frequencyData_None, Totals.fmap_Some_eq,
    GridFacts.totalCount_onGrid.
Qed.

Lemma reset_restores_the_grid_witness :
  gridShown (run initial [RegionClick "111"; Reset; ConditionChange "Anxiety"])
    [Samples.scenarioA_file]
  = Some (frequencyCells [Samples.scenarioA_file]).
Proof.
  apply (reset_restores_the_grid initial [RegionClick "111"] [ConditionChange "Anxiety"]).
  by repeat constructor.
Defined.

End PageFacts.

Module Colours.
Import Sankey SankeyView Flow Hops Keys Order.

Lemma scaleOrdinal_known (range domain : list string) (x : string) :
  x ∈ domain →
  scaleOrdinal range domain x
  = (domain, range !! (position domain x mod length range)).
Proof. intros Hx. unfold scaleOrdinal. by rewrite decide_True. Qed.

Lemma fold_insert_lookup {V} (f : string → V) (names : list string)
    (cm : gmap string V) (x : string) :
  fold_left (λ cm nm, <[nm := f nm]> cm) names cm !! x
  = if decide (x ∈ names) then Some (f x) else cm !! x.
Proof.
  revert cm. induction names as [|nm names IH]; intros cm; [done|].
  simpl. rewrite IH. destruct (decide (x ∈ names)) as [Hin|Hout].
  - rewrite decide_True; [done|by right].
  - destruct (decide (x = nm)) as [->|Hne].
    + rewrite lookup_insert_eq, decide_True; [done|left].
    + rewrite lookup_insert_ne by done. rewrite decide_False; [done|].
      by intros [->|?]%elem_of_cons.
Qed.

(** As long as every name is in the domain, the scale is a fixed function
    of the name and its domain never grows. *)
Lemma setColours_known (range domain names : list string)
    (cm : gmap string (option string)) :
  Forall (λ nm, nm ∈ domain) names →
  setColours range names (domain, cm)
  = (domain,
     fold_left (λ cm nm, <[nm := range !! (position domain nm mod length range)]> cm)
       names cm).
Proof.
  unfold setColours. revert cm. induction names as [|nm names IH]; intros cm Hn;
    [done|].
  inversion_clear Hn as [|? ? Hnm Hrest]. cbn [fold_left fst snd].
  rewrite (scaleOrdinal_known range domain nm Hnm). by apply IH.
Qed.

Lemma fold_setTreatment_lookup (ns : list CustomNode)
    (cm : gmap string (option string)) (x : string) :
  fold_left setTreatment ns cm !! x
  = if decide (isTreatment x = true ∧ x ∈ name <$> ns)
    then Some (Some (default "#cccccc" (treatmentColors !! x)))
    else cm !! x.
Proof.
  revert cm. induction ns as [|n ns IH]; intros cm.
  - simpl. rewrite decide_False; [done|]. intros [_ H]. by apply elem_of_nil in H.
  - cbn [fold_left]. rewrite IH, fmap_cons.
    destruct (decide (isTreatment x = true ∧ x ∈ name <$> ns)) as [[Ht Hin]|Hno].
    { rewrite decide_True; [done|]. split; [done|by right]. }
    unfold setTreatment. destruct (decide (x = name n)) as [->|Hne].
    + destruct (isTreatment (name n)) eqn:Et.
      * rewrite decide_True by (split; [done|left]).
        destruct (treatmentColors !! name n); by rewrite lookup_insert_eq.
      * rewrite decide_False; [done|]. by intros [? _].
    + rewrite decide_False.
      2:{ intros [Ht [->|Hin]%elem_of_cons]; [done|]. by apply Hno. }
      destruct (isTreatment (name n)); [|done].
      destruct (treatmentColors !! name n); by rewrite lookup_insert_ne.
Qed.

Lemma bin_is_not_condition_name (c nm : string) :
  nm ∈ cgpaBinLabels ++ ["Unknown"] → isCondition c nm = false.
Proof.
  intros Hnm. destruct (isCondition c nm) eqn:E; [|done]. exfalso.
  apply prefix_inv in E as [r E]. unfold cgpaBinLabels in Hnm. simpl in Hnm.
  apply elem_of_cons in Hnm as [-> | Hnm]; [peel c|].
  apply elem_of_cons in Hnm as [-> | Hnm]; [peel c|].
  apply elem_of_cons in Hnm as [-> | Hnm]; [peel c|].
  apply elem_of_cons in Hnm as [-> | Hnm]; [peel c|].
  apply elem_of_cons in Hnm as [-> | Hnm]; [peel c|].
  apply list_elem_of_singleton in Hnm as ->. peel c.
Qed.

Lemma node_name_cases (c : string) (data : list record) (nm : string) :
  nm ∈ name <$> nodes (buildGraph c data) →
  nm ∈ cgpaBinLabels ++ ["Unknown"]
  ∨ nm ∈ [c +:+ " No"; c +:+ " Yes"]
  ∨ nm ∈ ["Treatment No"; "Treatment Yes"].
Proof.
  destruct (Builder.fold_processRecord c data emptyGraph Builder.emptyGraph_registry)
    as (_ & _ & Hnames).
  fold (buildGraph c data) in Hnames. rewrite Hnames. simpl. rewrite elem_of_nil.
  intros [(d & _ & Hnm) | []]. unfold namesOf in Hnm.
  apply elem_of_cons in Hnm as [-> | Hnm]; [left; apply CgpaBins.getCgpabin_cases|].
  apply elem_of_cons in Hnm as [-> | Hnm].
  { right; left. unfold conditionName, yesNo. destruct (strict_eq _ _); set_solver. }
  apply list_elem_of_singleton in Hnm as ->.
  right; right. unfold treatmentName, yesNo. destruct (strict_eq _ _); set_solver.
Qed.

Lemma conditionNodes_in_domain (c : string) (data : list record) :
  Forall (λ nm, nm ∈ [c +:+ " No"; c +:+ " Yes"])
    (name <$> filter (λ d, isCondition c (name d) = true) (nodes (buildGraph c data))).
Proof.
  apply Forall_fmap, Forall_forall. intros n [Hc Hn]%list_elem_of_filter.
  simpl. destruct (node_name_cases c data (name n)) as [Hb | [Hd | Ht]];
    [by apply list_elem_of_fmap_2| |done|].
  - apply (bin_is_not_condition_name c) in Hb. congruence.
  - assert (c = "Treatment") as ->.
    { apply elem_of_cons in Ht as [Ht | Ht];
        [|apply list_elem_of_singleton in Ht]; rewrite Ht in Hc.
      - by apply (Comparator.isCondition_Treatment c "No"); [left|].
      - by apply (Comparator.isCondition_Treatment c "Yes"); [right|]. }
    done.
Qed.

Lemma colorMap_lookup (c : string) (data : list record) (x : string) :
  colorMap c (nodes (buildGraph c data)) !! x
  = if decide (isTreatment x = true ∧ x ∈ name <$> nodes (buildGraph c data))
    then Some (Some (default "#cccccc" (treatmentColors !! x)))
    else if decide (x ∈ name <$> filter (λ d, isCondition c (name d) = true)
                                    (nodes (buildGraph c data)))
    then Some (conditionColours
                 !! (position [c +:+ " No"; c +:+ " Yes"] x mod 2))
    else if decide (x ∈ cgpaBinLabels)
    then Some (cgpaColours !! (position cgpaBinLabels x mod 5))
    else None.
Proof.
  unfold colorMap. rewrite fold_setTreatment_lookup.
  case_decide; [done|].
  rewrite (setColours_known conditionColours _ _ _ (conditionNodes_in_domain c data)).
  cbn [snd]. rewrite fold_insert_lookup. case_decide; [done|].
  rewrite (setColours_known cgpaColours cgpaBinLabels cgpaBinLabels ∅)
    by (by apply Forall_forall).
  cbn [snd]. by rewrite fold_insert_lookup, lookup_empty.
Qed.

(** X15: among the nodes of the diagram, only "Unknown" has no colour.
    Every CGPA-bin, condition and treatment node of a built graph is given
    a colour, which depends on its name alone and not on the order of the
    records; the "Unknown" node, which is in none of the three families,
    is given none, so that its fill and the stroke of the links that leave
    it are undefined. *)
Theorem only_Unknown_is_uncoloured (c : string) (data : list record) (nm : string) :
  nm ∈ name <$> nodes (buildGraph c data) →
  (colorOf (colorMap c (nodes (buildGraph c data))) nm = None ↔ nm = "Unknown")
  ∧ (∀ i, cgpaBinLabels !! i = Some nm →
       colorOf (colorMap c (nodes (buildGraph c data))) nm = cgpaColours !! i)
  ∧ (nm = "Treatment Yes" →
       colorOf (colorMap c (nodes (buildGraph c data))) nm = Some "#2ca02c")
  ∧ (nm = "Treatment No" →
       colorOf (colorMap c (nodes (buildGraph c data))) nm = Some "#d62728")
  ∧ (startsWith c "Treatment" = false →
       (nm = c +:+ " No" →
        colorOf (colorMap c (nodes (buildGraph c data))) nm = Some "#c51b8a")
       ∧ (nm = c +:+ " Yes" →
          colorOf (colorMap c (nodes (buildGraph c data))) nm = Some "#7a0177")).
Proof.
  intros Hnm. unfold colorOf. rewrite colorMap_lookup.
  assert (∀ y, nm = c +:+ " " +:+ y →
               nm ∈ name <$> filter (λ d, isCondition c (name d) = true)
                               (nodes (buildGraph c data))) as Hcond.
  { intros y E.
    apply list_elem_of_fmap in Hnm as (n & En & Hn).
    apply list_elem_of_fmap. exists n. split; [done|].
    apply list_elem_of_filter. split; [|done].
    rewrite <- En, E. apply Comparator.isCondition_own. }
  assert (∀ y, startsWith c "Treatment" = false →
               isTreatment (c +:+ " " +:+ y) = false) as Hct.
  { intros y Hc. destruct (isTreatment _) eqn:E; [|done]. exfalso.
    apply prefix_inv in E as [r E].
    apply Weights.treatment_prefix in E as [c' ->].
    unfold startsWith in Hc. by rewrite prefix_app in Hc. }
  assert (position [c +:+ " No"; c +:+ " Yes"] (c +:+ " No") = 0) as Hno.
  { simpl. by rewrite String.eqb_refl. }
  assert (position [c +:+ " No"; c +:+ " Yes"] (c +:+ " Yes") = 1) as Hyes.
  { simpl. by rewrite app_eqb_tail, String.eqb_refl. }
  split; [|split; [|split; [|split]]].
  - destruct (node_name_cases c data nm Hnm) as [Hb | [Hd | Ht]].
    + pose proof (bin_is_not_condition_name c nm Hb) as Hnc.
      unfold cgpaBinLabels in Hb. simpl in Hb.
      rewrite decide_False.
      2:{ intros [Ht _]. revert Ht. Keys.cases_in Hb; by vm_compute. }
      rewrite decide_False.
      2:{ intros (n & -> & [Hc _]%list_elem_of_filter)%list_elem_of_fmap.
          congruence. }
      Keys.cases_in Hb; by vm_compute.
    + assert (nm ≠ "Unknown") as Hne.
      { intros ->. apply elem_of_cons in Hd as [Hd | Hd];
          [|apply list_elem_of_singleton in Hd].
        - apply (FlowLaws.condition_is_no_bin c "No").
          change (c +:+ " No" ∈ cgpaBinLabels ++ ["Unknown"]).
          rewrite <- Hd. set_solver.
        - apply (FlowLaws.condition_is_no_bin c "Yes").
          change (c +:+ " Yes" ∈ cgpaBinLabels ++ ["Unknown"]).
          rewrite <- Hd. set_solver. }
      split; [|done]. intros H. exfalso. case_decide; [done|].
      rewrite decide_True in H.
      2:{ apply elem_of_cons in Hd as [-> | Hd];
            [|apply list_elem_of_singleton in Hd as ->]; by eapply Hcond. }
      apply elem_of_cons in Hd as [-> | Hd];
        [|apply list_elem_of_singleton in Hd as ->].
      * by rewrite Hno in H.
      * by rewrite Hyes in H.
    + rewrite decide_True.
      2:{ split; [|done]. Keys.cases_in Ht; by vm_compute. }
      split; [done|]. intros ->. revert Ht. by apply (bool_decide_unpack _).
  - intros i Hi. rewrite decide_False.
    2:{ intros [Ht _]. revert Ht.
        destruct i as [|[|[|[|[|i]]]]]; try done; injection Hi as <-; by vm_compute. }
    rewrite decide_False.
    2:{ intros (n & -> & [Hc _]%list_elem_of_filter)%list_elem_of_fmap.
        rewrite (bin_is_not_condition_name c (name n)) in Hc; [done|].
        apply elem_of_app. left. by eapply list_elem_of_lookup_2. }
    destruct i as [|[|[|[|[|i]]]]]; try done; injection Hi as <-; by vm_compute.
  - intros ->. by rewrite decide_True.
  - intros ->. by rewrite decide_True.
  - intros Hc. split; intros ->.
    + pose proof (Hct "No" Hc : isTreatment (c +:+ " No") = false) as Hf.
      rewrite decide_False by (intros [Ht _]; congruence).
      rewrite decide_True by (by apply (Hcond "No")). by rewrite Hno.
    + pose proof (Hct "Yes" Hc : isTreatment (c +:+ " Yes") = false) as Hf.
      rewrite decide_False by (intros [Ht _]; congruence).
      rewrite decide_True by (by apply (Hcond "Yes")). by rewrite Hyes.
Qed.

Lemma only_Unknown_is_uncoloured_witness :
  colorOf (colorMap "Depression" (nodes (buildGraph "Depression" Cases.mixed)))
    "Unknown" = None.
Proof.
  assert ("Unknown" ∈ name <$> nodes (buildGraph "Depression" Cases.mixed)) as Hin.
  { apply (bool_decide_unpack _). vm_compute. reflexivity. }
  destruct (only_Unknown_is_uncoloured "Depression" Cases.mixed "Unknown" Hin)
    as ([_ H] & _).
  apply H. reflexivity.
Defined.

End Colours.

Module CrossViews.
Import Sankey Flow Hops Keys Weights HeatMap Grid Venn Classes Views.

Lemma filter_ext_in {A} (P Q : A → Prop) `{!∀ x, Decision (P x)}
    `{!∀ x, Decision (Q x)} (l : list A) :
  Forall (λ x, P x ↔ Q x) l → filter P l = filter Q l.
Proof.
  induction 1 as [|x l Hx _ IH]; [done|]. rewrite !filter_cons, IH.
  destruct (decide (P x)), (decide (Q x)); tauto.
Qed.

Lemma onGrid_cases (d : record) :
  onGrid d →
  ∃ cg yr, cg ∈ cgpaRanges ∧ yr ∈ yearsOfStudy
           ∧ field d "What is your CGPA?" = Str cg
           ∧ field d "Your current year of Study" = Str yr.
Proof.
  intros [(cg & Hcg & Hin)%list_elem_of_fmap (yr & Hyr & Hin')%list_elem_of_fmap].
  eauto 10.
Qed.

Lemma rowCount_cells (data : list record) (r : string) :
  r ∈ cgpaRanges →
  rowCount r (frequencyCells data)
  = sum_list_with (λ yr, length (filter (λ d, inCell r yr d = true) data))
      yearsOfStudy.
Proof. intros Hr. unfold cgpaRanges in Hr. cases_in Hr; reflexivity. Qed.

Lemma years_of_record (d : record) (r : string) :
  onGrid d →
  length (filter (λ yr, inCell r yr d = true) yearsOfStudy)
  = if decide (field d "What is your CGPA?" = Str r) then 1 else 0.
Proof.
  intros (cg & yr & _ & Hyr & Ecg & Eyr)%onGrid_cases.
  unfold inCell. rewrite Ecg, Eyr. cbn [strict_eq].
  unfold yearsOfStudy in *. case_decide as E.
  - injection E as ->. rewrite String.eqb_refl. cases_in Hyr; reflexivity.
  - assert (String.eqb cg r = false) as ->.
    { apply String.eqb_neq. by intros ->. }
    reflexivity.
Qed.

Lemma rowCount_records (data : list record) (r : string) :
  r ∈ cgpaRanges → Forall onGrid data →
  rowCount r (frequencyCells data)
  = length (filter (λ d, field d "What is your CGPA?" = Str r) data).
Proof.
  intros Hr Hdata. rewrite (rowCount_cells data r Hr).
  rewrite (GridFacts.double_count (λ yr d, inCell r yr d)).
  induction Hdata as [|d data Hd _ IH]; [done|].
  cbn [sum_list_with]. by rewrite GridFacts.length_filter_cons, IH, years_of_record.
Qed.

Lemma bin_of_range (d : record) (i : nat) (r lab : string) :
  cgpaRanges !! i = Some r → cgpaBinLabels !! i = Some lab → onGrid d →
  String.eqb lab (cgpaRange d) = true ↔ field d "What is your CGPA?" = Str r.
Proof.
  intros Hr Hlab (cg & yr & Hcg & _ & Ecg & _)%onGrid_cases.
  unfold cgpaRange. rewrite Ecg. unfold cgpaRanges in Hcg.
  destruct i as [|[|[|[|[|i]]]]]; try done;
    injection Hr as <-; injection Hlab as <-;
    cases_in Hcg; vm_compute; split; congruence.
Qed.

(** X16: the grid and the flow diagram agree on the CGPA ranges.  For a
    collection whose records are all on the grid, the counts of the
    cells of the i-th range of the grid, in the unfiltered grid, add up to
    the weight that leaves the i-th CGPA bin of the flow graph, whatever
    the active condition. *)
Theorem grid_rows_match_bins (c : string) (data : list record) (i : nat)
    (r lab : string) :
  Forall onGrid data →
  cgpaRanges !! i = Some r → cgpaBinLabels !! i = Some lab →
  sumValues (linksFrom (String.eqb lab) (links (buildGraph c data)))
  = of_nat (rowCount r (frequencyCells data)).
Proof.
  intros Hdata Hr Hlab.
  rewrite sumValues_from, (FlowLaws.count_hops _ c data). f_equal.
  rewrite (FlowLaws.filter_none (λ d, String.eqb lab (secondHop c d).1 = true)).
  2:{ intros d E. simpl in E. apply String.eqb_eq in E.
      destruct (FlowLaws.conditionName_cases c d) as (y & _ & Ey).
      apply (FlowLaws.condition_is_no_bin c y). rewrite <- Ey, <- E.
      apply elem_of_app. left. by eapply list_elem_of_lookup_2. }
  rewrite Nat.add_0_r, rowCount_records; [|by eapply list_elem_of_lookup_2|done].
  f_equal. apply filter_ext_in. eapply Forall_impl; [exact Hdata|].
  intros d Hd. simpl. by apply (bin_of_range d i).
Qed.

Lemma grid_rows_match_bins_witness :
  sumValues (linksFrom (String.eqb "3.0-3.49")
               (links (buildGraph "Anxiety" [Samples.scenarioA_file; Samples.healthy])))
  = of_nat (rowCount "3.00 - 3.49"
              (frequencyCells [Samples.scenarioA_file; Samples.healthy])).
Proof.
  apply (grid_rows_match_bins "Anxiety" [Samples.scenarioA_file; Samples.healthy] 3);
    [|reflexivity|reflexivity].
  repeat constructor; apply (bool_decide_unpack _); vm_compute; reflexivity.
Defined.

Lemma answered_cells (d : record) :
  answered d →
  ∃ a b p, a ∈ ["Yes"; "No"] ∧ b ∈ ["Yes"; "No"] ∧ p ∈ ["Yes"; "No"]
           ∧ field d "Do you have Depression?" = Str a
           ∧ field d "Do you have Anxiety?" = Str b
           ∧ field d "Do you have Panic attack?" = Str p.
Proof.
  unfold answered, conditions. rewrite !Forall_cons, Forall_nil.
  cbv [column String.append]. intros (Ha & Hb & Hp & _).
  assert (∀ v, v ∈ [Str "Yes"; Str "No"] → ∃ s, s ∈ ["Yes"; "No"] ∧ v = Str s)
    as Hcell.
  { intros v Hv. apply elem_of_cons in Hv as [-> | Hv];
      [|apply list_elem_of_singleton in Hv as ->]; eexists; split; try done;
      set_solver. }
  apply Hcell in Ha as (a & ? & ?), Hb as (b & ? & ?), Hp as (p & ? & ?).
  eauto 12.
Qed.

Lemma answered_keyed (d : record) : answered d → keyed d.
Proof.
  intros (a & b & p & _ & _ & _ & Ea & Eb & Ep)%answered_cells.
  unfold keyed, conditions. rewrite !Forall_cons, Forall_nil.
  cbv [column String.append]. rewrite Ea, Eb, Ep. repeat split; by eexists.
Qed.

Lemma codesWith_cases :
  codesWith 0 = ["100"; "110"; "101"; "111"]
  ∧ codesWith 1 = ["010"; "110"; "011"; "111"]
  ∧ codesWith 2 = ["001"; "101"; "011"; "111"].
Proof. by vm_compute. Qed.

Lemma yes_records (data : list record) (i : nat) (c : string) :
  conditions !! i = Some c → Forall answered data →
  sum_list_with (λ code, length (inRegion code data)) (codesWith i)
  = length (filter (λ d, String.eqb (c +:+ " Yes") (conditionName c d) = true) data).
Proof.
  intros Hc Hdata. destruct codesWith_cases as (C0 & C1 & C2).
  induction Hdata as [|d data Hd _ IH].
  - destruct i as [|[|[|i]]]; try done; rewrite ?C0, ?C1, ?C2; reflexivity.
  - rewrite GridFacts.length_filter_cons, <- IH. clear IH.
    apply answered_cells in Hd as (a & b & p & Ha & Hb & Hp & Ea & Eb & Ep).
    assert (regionKey d
            = Some ((if String.eqb a "Yes" then "1" else "0")
                    +:+ (if String.eqb b "Yes" then "1" else "0")
                    +:+ (if String.eqb p "Yes" then "1" else "0"))) as Hk.
    { unfold regionKey. rewrite Ea, Eb, Ep.
      cases_in Ha; cases_in Hb; cases_in Hp; reflexivity. }
    unfold conditionName.
    destruct i as [|[|[|i]]]; try done; injection Hc as <-;
      rewrite ?C0, ?C1, ?C2; cbn [sum_list_with];
      rewrite !(Counts.inRegion_cons _ _ d data Hk);
      cbv [String.append]; rewrite ?Ea, ?Eb, ?Ep;
      cases_in Ha; cases_in Hb; cases_in Hp;
      vm_compute decide; cbn [length]; lia.
Qed.

(** X17: the region diagram and the flow diagram agree on each condition.
    For a collection whose condition cells all spell "Yes" or "No", the
    counts of the regions inside the circle of the i-th condition add up
    to the weight that leaves the "Yes" node of the flow graph built for
    that condition. *)
Theorem circles_match_yes_nodes (data : list record) (i : nat) (c : string) :
  conditions !! i = Some c → Forall answered data →
  ∃ m, calculateFrequencies data = Some m
       ∧ sumCodes m (codesWith i)
         = sumValues (linksFrom (String.eqb (c +:+ " Yes"))
                        (links (buildGraph c data))).
Proof.
  intros Hc Hdata.
  assert (Forall keyed data) as Hkeyed.
  { eapply Forall_impl; [exact Hdata|]. apply answered_keyed. }
  destruct (Counts.calculateFrequencies_lookup data Hkeyed) as (m & Hm & Hcodes & _).
  exists m. split; [done|].
  rewrite sumValues_from, (FlowLaws.count_hops _ c data).
  rewrite (FlowLaws.filter_none (λ d, String.eqb _ (firstHop c d).1 = true)).
  2:{ intros d E. simpl in E. apply String.eqb_eq in E.
      apply (FlowLaws.condition_is_no_bin c "Yes").
      change (c +:+ " Yes" ∈ cgpaBinLabels ++ ["Unknown"]). rewrite E.
      apply CgpaBins.getCgpabin_cases. }
  cbn [plus secondHop fst]. rewrite <- (yes_records data i c Hc Hdata).
  destruct codesWith_cases as (C0 & C1 & C2).
  destruct i as [|[|[|i]]]; try done; rewrite ?C0, ?C1, ?C2;
    unfold sumCodes; cbn [fold_right sum_list_with];
    rewrite !Hcodes by (by apply (bool_decide_unpack _));
    cbn [to_number_opt]; rewrite !add_of_nat; f_equal; lia.
Qed.

Lemma circles_match_yes_nodes_witness :
  ∃ m, calculateFrequencies [Samples.scenarioA_file; Samples.healthy] = Some m
       ∧ sumCodes m (codesWith 2)
         = sumValues (linksFrom (String.eqb "Panic attack Yes")
                        (links (buildGraph "Panic attack"
                                  [Samples.scenarioA_file; Samples.healthy]))).
Proof.
  apply (circles_match_yes_nodes [Samples.scenarioA_file; Samples.healthy] 2
           "Panic attack"); [reflexivity|].
  repeat constructor; apply (bool_decide_unpack _); vm_compute; reflexivity.
Defined.

End CrossViews.

Module Bounds.
Import Sankey SankeyView Flow Hops Shapes Keys Order Legend.

Lemma NoDup_subset_length {A} (l k : list A) :
  NoDup l → (∀ x, x ∈ l → x ∈ k) → length l ≤ length k.
Proof. intros Hnd Hsub. apply submseteq_length. by apply NoDup_submseteq. Qed.

Lemma hop_in_allPairs (c : string) (p : string * string) :
  hop c p → p ∈ allPairs c.
Proof.
  unfold allPairs. intros [bin y Hb Hy | y t Hy Ht]; apply elem_of_app.
  - left. unfold cgpaBinLabels in Hb. simpl in Hb.
    cases_in Hb; cases_in Hy; simpl; set_solver.
  - right. cases_in Hy; cases_in Ht; simpl; set_solver.
Qed.

(** X18: the graph stays small.  However many records there are, the
    graph has at most 10 nodes, with names among the five bins, "Unknown",
    the two nodes of the condition and the two treatment nodes, and at
    most 16 links. *)
Theorem graph_is_small (c : string) (data : list record) :
  length (nodes (buildGraph c data)) ≤ 10
  ∧ length (links (buildGraph c data)) ≤ 16
  ∧ Forall (λ n, name n ∈ allNames c) (nodes (buildGraph c data))
  ∧ Forall (λ l, endpoints l ∈ allPairs c) (links (buildGraph c data)).
Proof.
  assert (∀ x, x ∈ name <$> nodes (buildGraph c data) → x ∈ allNames c) as Hn.
  { intros x Hx. unfold allNames.
    destruct (Colours.node_name_cases c data x Hx) as [H | [H | H]];
      rewrite ?elem_of_app in H; rewrite !elem_of_app; tauto. }
  assert (∀ p, p ∈ endpoints <$> links (buildGraph c data) → p ∈ allPairs c) as Hp.
  { intros p Hin. apply hop_in_allPairs.
    apply (hops_shape c data). by apply Weights.elem_of_endpoints. }
  destruct (Builder.fold_processRecord c data emptyGraph Builder.emptyGraph_registry)
    as ((Hnd & _ & _) & _ & _).
  fold (buildGraph c data) in Hnd.
  split; [|split; [|split]].
  - rewrite <- (length_fmap name). by apply (NoDup_subset_length _ (allNames c)).
  - rewrite <- (length_fmap endpoints).
    apply (NoDup_subset_length _ (allPairs c)); [|done].
    rewrite Registry.endpoints_first_seen. apply Tally.NoDup_distinct.
  - apply Forall_forall. intros n Hin. apply Hn. by apply list_elem_of_fmap_2.
  - apply Forall_forall. intros l Hin. apply Hp. by apply list_elem_of_fmap_2.
Qed.

(** X19: the CGPA legend is fixed.  For every collection and every
    condition it lists the five bins with their five colours, also the
    bins that no record falls in, and never "Unknown". *)
Theorem cgpa_legend_is_fixed (c : string) (data : list record) :
  cgpaLegendData (colorMap c (nodes (buildGraph c data)))
  = [("0-1.99", Some "#96c1ff"); ("2.0-2.49", Some "#7fa6ff");
     ("2.5-2.99", Some "#5f8cff"); ("3.0-3.49", Some "#3f72ff");
     ("3.5-4.0", Some "#00429d")].
Proof.
  assert (∀ label, label ∈ cgpaBinLabels →
            colorOf (colorMap c (nodes (buildGraph c data))) label
            = cgpaColours !! (position cgpaBinLabels label mod 5)) as H.
  { intros label Hl. unfold colorOf. rewrite Colours.colorMap_lookup.
    rewrite decide_False.
    2:{ intros [Ht _]. revert Ht. unfold cgpaBinLabels in Hl.
        cases_in Hl; by vm_compute. }
    rewrite decide_False.
    2:{ intros (n & -> & [Hc _]%list_elem_of_filter)%list_elem_of_fmap.
        rewrite (Colours.bin_is_not_condition_name c (name n)) in Hc; [done|].
        apply elem_of_app. by left. }
    by rewrite decide_True. }
  unfold cgpaLegendData, cgpaBinLabels. cbn [fmap list_fmap].
  rewrite !H by (by apply (bool_decide_unpack _)). reflexivity.
Qed.

End Bounds.
